(** * cli-task-manager: the task model and the task store of [taskmanager.py]

    A shallow embedding of [TaskModel] (the validated task record), of
    [TaskManager] (the title-indexed store backed by a JSON file) and of
    the commands that call into the store, followed by the properties of
    the specification that concern them.

    Conventions of the embedding.
    - [datetime] is the naive calendar record of Python's [datetime]; the
      comparison is field-wise lexicographic and adding whole days walks the
      calendar, leaving the range of years 1..9999 being [OverflowError].
    - [TaskModel] is a model of pydantic 2, the release that provides the
      [field_validator] the program imports. A validator declared with two
      parameters after [cls] is called with the value and a
      [ValidationInfo]; a [ValueError] it raises becomes an issue of its
      field, any other exception leaves validation at once; a field that is
      left out takes its default without being validated.
    - A Python [dict] keyed by strings is a [gmap string _]; the backing
      file holds the parsed JSON document (the text layer of [json.dump] /
      [json.load] is not modelled).
    - A method of [TaskManager] is a function from the state to an outcome
      (a returned value or a raised exception) and the state it leaves. *)

From Stdlib Require Import ZArith String Ascii List Bool Lia.
From stdpp Require Import base option list strings gmap fin_maps.

Local Open Scope Z_scope.

(** ** Calendar time *)

Record datetime := mk_datetime {
  year : Z; month : Z; day : Z;
  hour : Z; minute : Z; second : Z; microsecond : Z
}.

Definition MINYEAR : Z := 1.
Definition MAXYEAR : Z := 9999.

Definition is_leap (y : Z) : bool :=
  (y mod 4 =? 0) && (negb (y mod 100 =? 0) || (y mod 400 =? 0)).

Definition days_in_month (y m : Z) : Z :=
  if m =? 2 then (if is_leap y then 29 else 28)
  else if (m =? 4) || (m =? 6) || (m =? 9) || (m =? 11) then 30
  else 31.

Definition valid_datetime (d : datetime) : bool :=
  (MINYEAR <=? year d) && (year d <=? MAXYEAR)
  && (1 <=? month d) && (month d <=? 12)
  && (1 <=? day d) && (day d <=? days_in_month (year d) (month d))
  && (0 <=? hour d) && (hour d <? 24)
  && (0 <=? minute d) && (minute d <? 60)
  && (0 <=? second d) && (second d <? 60)
  && (0 <=? microsecond d) && (microsecond d <? 1000000).

Definition datetime_fields (d : datetime) : list Z :=
  [year d; month d; day d; hour d; minute d; second d; microsecond d].

Fixpoint lex_compare (a b : list Z) : comparison :=
  match a, b with
  | [], [] => Eq
  | [], _ :: _ => Lt
  | _ :: _, [] => Gt
  | x :: a', y :: b' =>
      match x ?= y with
      | Eq => lex_compare a' b'
      | c => c
      end
  end.

Definition datetime_compare (a b : datetime) : comparison :=
  lex_compare (datetime_fields a) (datetime_fields b).

(** [a < b] and [a <= b] on datetimes. *)
Definition datetime_lt (a b : datetime) : bool :=
  match datetime_compare a b with Lt => true | _ => false end.

Definition datetime_le (a b : datetime) : bool :=
  match datetime_compare a b with Gt => false | _ => true end.

(** The day after and the day before, [None] outside MINYEAR..MAXYEAR. *)
Definition next_day (d : datetime) : option datetime :=
  if day d <? days_in_month (year d) (month d) then
    Some (mk_datetime (year d) (month d) (day d + 1)
            (hour d) (minute d) (second d) (microsecond d))
  else if month d <? 12 then
    Some (mk_datetime (year d) (month d + 1) 1
            (hour d) (minute d) (second d) (microsecond d))
  else if year d <? MAXYEAR then
    Some (mk_datetime (year d + 1) 1 1
            (hour d) (minute d) (second d) (microsecond d))
  else None.

Definition prev_day (d : datetime) : option datetime :=
  if 1 <? day d then
    Some (mk_datetime (year d) (month d) (day d - 1)
            (hour d) (minute d) (second d) (microsecond d))
  else if 1 <? month d then
    Some (mk_datetime (year d) (month d - 1)
            (days_in_month (year d) (month d - 1))
            (hour d) (minute d) (second d) (microsecond d))
  else if MINYEAR <? year d then
    Some (mk_datetime (year d - 1) 12 31
            (hour d) (minute d) (second d) (microsecond d))
  else None.

(** ** Exceptions and outcomes *)

Inductive validation_issue :=
  | missing (field : string)
  | wrong_type (field : string)
  | string_too_short (field : string)
  | string_too_long (field : string)
  | greater_than_equal (field : string) (bound : Z)
  | less_than_equal (field : string) (bound : Z)
  | value_error (field : string) (msg : string).

Inductive exn :=
  | ValidationError (issues : list validation_issue)
  | OverflowError
  | KeyError (key : string)
  | AttributeError.

(** [except ValueError]: pydantic's [ValidationError] is a [ValueError];
    [OverflowError] (an [ArithmeticError]), [KeyError] (a [LookupError])
    and [AttributeError] are not. *)
Definition is_ValueError (e : exn) : bool :=
  match e with
  | ValidationError _ => true
  | _ => false
  end.

Inductive outcome (A : Type) :=
  | Return (a : A)
  | Raise (e : exn).
Arguments Return {A} a.
Arguments Raise {A} e.

(** [d + timedelta(days=n)]. *)
Definition step_days (step : datetime -> option datetime) (n : positive)
    (d : datetime) : option datetime :=
  Pos.iter (fun o => match o with Some x => step x | None => None end) (Some d) n.

Definition datetime_add_days (d : datetime) (n : Z) : outcome datetime :=
  let r := match n with
           | Z0 => Some d
           | Zpos p => step_days next_day p d
           | Zneg p => step_days prev_day p d
           end in
  match r with
  | Some d' => Return d'
  | None => Raise OverflowError
  end.

(** ** The task record *)

Inductive Priority := LOW | MEDIUM | HIGH.

Definition Priority_value (p : Priority) : string :=
  match p with
  | LOW => "low"
  | MEDIUM => "medium"
  | HIGH => "high"
  end.

Record TaskModel := mk_TaskModel {
  title : string;
  priority : Priority;
  deadline : option datetime;
  dependencies : list string;
  recurring : bool;
  recurrence_interval : option Z;
  completed : bool;
  created_at : datetime
}.

(** [task.completed = True] *)
Definition set_completed (t : TaskModel) : TaskModel :=
  mk_TaskModel (title t) (priority t) (deadline t) (dependencies t)
    (recurring t) (recurrence_interval t) true (created_at t).

(** *** Field validators

    [check_title] and [deadline_must_be_future] return the issues they
    raise for their field, the empty list being acceptance. [now] is the
    reading of [datetime.now()]. *)

(** [Field(..., min_length=1, max_length=100)] *)
Definition check_title (v : string) : list validation_issue :=
  if (String.length v <? 1)%nat then [string_too_short "title"]
  else if (100 <? String.length v)%nat then [string_too_long "title"]
  else [].

(** [if v and v < datetime.now(): raise ValueError(...)]; a datetime is
    always truthy, so [v and ...] only excludes [None]. *)
Definition deadline_must_be_future (now : datetime) (v : option datetime)
    : list validation_issue :=
  match v with
  | Some d =>
      if datetime_lt d now
      then [value_error "deadline" "Deadline must be in the future"]
      else []
  | None => []
  end.

#[export] Instance outcome_ret : MRet outcome := fun A a => Return a.

#[export] Instance outcome_bind : MBind outcome := fun A B f m =>
  match m with
  | Return a => f a
  | Raise e => Raise e
  end.

(** The object a validator receives as its second argument: the fields
    validated before its own, of which [recurring] is kept here ([None]
    when it had an issue), and the name of the field being validated. *)
Record ValidationInfo := mk_ValidationInfo {
  data_recurring : option bool;
  field_name : string
}.

(** [values.get(key, default)] on a [ValidationInfo]: the object has no
    attribute [get], the attribute lookup raises. *)
Definition ValidationInfo_get (values : ValidationInfo) (key : string) (default : bool)
    : outcome bool :=
  Raise AttributeError.

(** The validator of [recurrence_interval]; the result is the issue of
    the [ValueError] it raises, the empty list where it returns [v]. *)
Definition validate_recurrence_interval (v : option Z) (values : ValidationInfo)
    : outcome (list validation_issue) :=
  is_recurring ← ValidationInfo_get values "recurring" false;
  if is_recurring && (if v is None then true else false) then
    Return [value_error "recurrence_interval"
              "Recurrence interval is required for recurring tasks"]
  else
    is_recurring ← ValidationInfo_get values "recurring" false;
    if negb is_recurring && (if v is None then false else true) then
      Return [value_error "recurrence_interval"
                "Recurrence interval should only be set for recurring tasks"]
    else Return [].

(** [Field(None, ge=1, le=365)]: the bounds apply to an integer, not to
    [None]; the validator above runs after them, and only if they hold. *)
Definition check_recurrence_interval (v : option Z) (values : ValidationInfo)
    : outcome (list validation_issue) :=
  match v with
  | Some i =>
      if i <? 1 then Return [greater_than_equal "recurrence_interval" 1]
      else if 365 <? i then Return [less_than_equal "recurrence_interval" 365]
      else validate_recurrence_interval v values
  | None => validate_recurrence_interval v values
  end.

(** *** Validation of a whole record

    The input of validation gives, for each field, the value supplied for
    it or nothing (the field is left out). The result for one field is its
    validated value or the issues found. A field that is left out takes
    its default, which is not validated; [title] and [priority] have no
    default. *)
Definition field (A : Type) : Type := (list validation_issue + A)%type.

Definition issues {A} (f : field A) : list validation_issue :=
  match f with
  | inl es => es
  | inr _ => []
  end.

Definition checked {A} (check : A -> list validation_issue) (v : A) : field A :=
  match check v with
  | [] => inr v
  | es => inl es
  end.

Definition required {A} (name : string) (check : A -> list validation_issue)
    (raw : option A) : field A :=
  match raw with
  | Some v => checked check v
  | None => inl [missing name]
  end.

Definition optional {A} (dflt : A) (check : A -> list validation_issue)
    (raw : option A) : field A :=
  match raw with
  | Some v => checked check v
  | None => inr dflt
  end.

Record model_input := mk_input {
  in_title : option string;
  in_priority : option Priority;
  in_deadline : option (option datetime);
  in_dependencies : option (list string);
  in_recurring : option bool;
  in_recurrence_interval : option (option Z);
  in_completed : option bool;
  in_created_at : option datetime
}.

Definition no_check {A} (_ : A) : list validation_issue := [].

(** Fields are validated in declaration order. The issues of all fields
    are reported together in one [ValidationError]; an exception of the
    validator of [recurrence_interval] that is not a [ValueError] ends
    validation where it is raised, whatever issues were found before.
    [created_at]'s default factory reads the clock. *)
Definition model_validate (now : datetime) (i : model_input) : outcome TaskModel :=
  let f_title := required "title" check_title (in_title i) in
  let f_priority := required "priority" no_check (in_priority i) in
  let f_deadline := optional None (deadline_must_be_future now) (in_deadline i) in
  let f_dependencies := optional [] no_check (in_dependencies i) in
  let f_recurring := optional false no_check (in_recurring i) in
  let values :=
    mk_ValidationInfo (match f_recurring with inr b => Some b | inl _ => None end)
      "recurrence_interval" in
  f_interval ← match in_recurrence_interval i with
               | Some v =>
                   es ← check_recurrence_interval v values;
                   mret (match es with [] => inr v | _ => inl es end)
               | None => mret (inr None)
               end;
  let f_completed := optional false no_check (in_completed i) in
  let f_created_at := optional now no_check (in_created_at i) in
  match f_title, f_priority, f_deadline, f_dependencies,
        f_recurring, f_interval, f_completed, f_created_at with
  | inr t, inr p, inr d, inr deps, inr r, inr ri, inr c, inr ca =>
      Return (mk_TaskModel t p d deps r ri c ca)
  | _, _, _, _, _, _, _, _ =>
      Raise (ValidationError
               (issues f_title ++ issues f_priority ++ issues f_deadline
                ++ issues f_dependencies ++ issues f_recurring
                ++ issues f_interval ++ issues f_completed
                ++ issues f_created_at))
  end.

(** [TaskModel(title=..., priority=..., deadline=..., dependencies=...,
    recurring=..., recurrence_interval=...)], the call made by the
    program, in [complete_task] and in the command [add]: six fields by
    keyword, [completed] and [created_at] left to their defaults. *)
Definition TaskModel_new (now : datetime) (title : string) (priority : Priority)
    (deadline : option datetime) (dependencies : list string)
    (recurring : bool) (recurrence_interval : option Z) : outcome TaskModel :=
  model_validate now
    (mk_input (Some title) (Some priority) (Some deadline) (Some dependencies)
       (Some recurring) (Some recurrence_interval) None None).

(** ** The JSON document *)

#[local] Unset Elimination Schemes.
Inductive json :=
  | JNull
  | JBool (b : bool)
  | JInt (n : Z)
  | JStr (s : string)
  | JArr (items : list json)
  | JObj (members : list (string * json)).
#[local] Set Elimination Schemes.

(** The items of the [dict] that [json.load] builds from the members of
    an object: keys in order of first occurrence, a later duplicate
    replacing the value. *)
Fixpoint dict_set {A} (k : string) (v : A) (d : list (string * A)) : list (string * A) :=
  match d with
  | [] => [(k, v)]
  | (k', v') :: d' =>
      if String.eqb k k' then (k, v) :: d' else (k', v') :: dict_set k v d'
  end.

Definition dict_items {A} (members : list (string * A)) : list (string * A) :=
  fold_left (fun d kv => dict_set (fst kv) (snd kv) d) members [].

Fixpoint dict_get {A} (k : string) (d : list (string * A)) : option A :=
  match d with
  | [] => None
  | (k', v) :: d' => if String.eqb k k' then Some v else dict_get k d'
  end.

(** *** [datetime.isoformat()] and its reading back *)

Definition digit_char (n : Z) : ascii := ascii_of_nat (48 + Z.to_nat n).

Definition digit_val (c : ascii) : option Z :=
  let n := Z.of_nat (nat_of_ascii c) in
  if (48 <=? n) && (n <=? 57) then Some (n - 48) else None.

(** [n] in decimal on [width] digits, padded with zeros. *)
Fixpoint zero_pad (width : nat) (n : Z) : list ascii :=
  match width with
  | O => []
  | S w => digit_char ((n / 10 ^ Z.of_nat w) mod 10) :: zero_pad w n
  end.

Definition dash : ascii := "-"%char.
Definition colon : ascii := ":"%char.
Definition dot : ascii := "."%char.
Definition tee : ascii := "T"%char.

(** [YYYY-MM-DDTHH:MM:SS], followed by [.ffffff] unless the microsecond
    is zero. *)
Definition isoformat (d : datetime) : string :=
  string_of_list_ascii
    (zero_pad 4 (year d) ++ dash :: zero_pad 2 (month d) ++ dash :: zero_pad 2 (day d)
     ++ tee :: zero_pad 2 (hour d) ++ colon :: zero_pad 2 (minute d)
     ++ colon :: zero_pad 2 (second d)
     ++ (if microsecond d =? 0 then [] else dot :: zero_pad 6 (microsecond d))).

Fixpoint read_digits (width : nat) (acc : Z) (l : list ascii) : option (Z * list ascii) :=
  match width with
  | O => Some (acc, l)
  | S w =>
      match l with
      | c :: r =>
          match digit_val c with
          | Some v => read_digits w (acc * 10 + v) r
          | None => None
          end
      | [] => None
      end
  end.

Definition expect (c : ascii) (l : list ascii) : option (list ascii) :=
  match l with
  | c' :: r => if Ascii.eqb c c' then Some r else None
  | [] => None
  end.

(** Reading of a datetime string, for the two shapes [isoformat] writes;
    [None] for every other text. *)
Definition parse_datetime (s : string) : option datetime :=
  '(y, l) ← read_digits 4 0 (list_ascii_of_string s);
  l ← expect dash l;
  '(mo, l) ← read_digits 2 0 l;
  l ← expect dash l;
  '(dd, l) ← read_digits 2 0 l;
  l ← expect tee l;
  '(h, l) ← read_digits 2 0 l;
  l ← expect colon l;
  '(mi, l) ← read_digits 2 0 l;
  l ← expect colon l;
  '(sec, l) ← read_digits 2 0 l;
  us ← match l with
       | [] => Some 0
       | _ => l ← expect dot l;
              '(us, l) ← read_digits 6 0 l;
              match l with [] => Some us | _ => None end
       end;
  let d := mk_datetime y mo dd h mi sec us in
  if valid_datetime d then Some d else None.

(** *** [task.json()] and [TaskModel.parse_obj] *)

Definition json_of_option {A} (f : A -> json) (o : option A) : json :=
  match o with
  | Some a => f a
  | None => JNull
  end.

(** [json.loads(task.json())], with [json_encoders] writing datetimes by
    [isoformat]. *)
Definition task_json (t : TaskModel) : json :=
  JObj [("title", JStr (title t));
        ("priority", JStr (Priority_value (priority t)));
        ("deadline", json_of_option (fun d => JStr (isoformat d)) (deadline t));
        ("dependencies", JArr (map JStr (dependencies t)));
        ("recurring", JBool (recurring t));
        ("recurrence_interval", json_of_option JInt (recurrence_interval t));
        ("completed", JBool (completed t));
        ("created_at", JStr (isoformat (created_at t)))]%string.

(** Reading a JSON value as a field value. pydantic also converts values
    of other JSON types and reads further notations of a datetime; those
    conversions are not modelled: [None] stands for a value outside the
    part that is, the values [task_json] writes. *)
Definition decode_str (j : json) : option string :=
  match j with
  | JStr s => Some s
  | _ => None
  end.

Definition decode_priority (j : json) : option Priority :=
  match j with
  | JStr s =>
      if String.eqb s "low" then Some LOW
      else if String.eqb s "medium" then Some MEDIUM
      else if String.eqb s "high" then Some HIGH
      else None
  | _ => None
  end.

Definition decode_datetime (j : json) : option datetime :=
  match j with
  | JStr s => parse_datetime s
  | _ => None
  end.

Definition decode_optional {A} (dec : json -> option A) (j : json) : option (option A) :=
  match j with
  | JNull => Some None
  | _ => option_map Some (dec j)
  end.

Definition decode_bool (j : json) : option bool :=
  match j with
  | JBool b => Some b
  | _ => None
  end.

Definition decode_int (j : json) : option Z :=
  match j with
  | JInt n => Some n
  | _ => None
  end.

Definition decode_str_list (j : json) : option (list string) :=
  match j with
  | JArr l => mapM decode_str l
  | _ => None
  end.

(** The value supplied for the field [name] by the dict [d]: nothing when
    the key is missing, the decoded value otherwise. *)
Definition supplied {A} (dec : json -> option A) (name : string)
    (d : list (string * json)) : option (option A) :=
  match dict_get name d with
  | Some j => option_map Some (dec j)
  | None => Some None
  end.

(** [TaskModel.parse_obj(task_data)]: the fields are looked up by name in
    the object, other keys being ignored, and validated like the keyword
    arguments of the constructor. The result is [None] where a value lies
    outside the modelled part of the conversions. *)
Definition parse_obj (now : datetime) (task_data : json) : option (outcome TaskModel) :=
  match task_data with
  | JObj members =>
      let d := dict_items members in
      v_title ← supplied decode_str "title" d;
      v_priority ← supplied decode_priority "priority" d;
      v_deadline ← supplied (decode_optional decode_datetime) "deadline" d;
      v_dependencies ← supplied decode_str_list "dependencies" d;
      v_recurring ← supplied decode_bool "recurring" d;
      v_interval ← supplied (decode_optional decode_int) "recurrence_interval" d;
      v_completed ← supplied decode_bool "completed" d;
      v_created_at ← supplied decode_datetime "created_at" d;
      Some (model_validate now
              (mk_input v_title v_priority v_deadline v_dependencies v_recurring
                 v_interval v_completed v_created_at))
  | _ => Some (Raise (ValidationError [wrong_type "TaskModel"]))
  end.

(** ** The task store *)

(** The [TaskManager] object ([filename], [tasks]) together with the
    files it reads and writes ([disk], the document held by each
    existing file). *)
Record state := mk_state {
  filename : string;
  tasks : gmap string TaskModel;
  disk : gmap string json
}.

(** A method: the outcome and the state left behind, also when it raises. *)
Definition M (A : Type) : Type := state -> outcome A * state.

#[export] Instance M_ret : MRet M := fun A a s => (Return a, s).

#[export] Instance M_bind : MBind M := fun A B f m s =>
  match m s with
  | (Return a, s') => f a s'
  | (Raise e, s') => (Raise e, s')
  end.

Definition lift {A} (o : outcome A) : M A := fun s => (o, s).

Definition get_tasks : M (gmap string TaskModel) := fun s => (Return (tasks s), s).

(** [self.tasks[key] = task] *)
Definition set_item (key : string) (task : TaskModel) : M unit := fun s =>
  (Return tt, mk_state (filename s) (<[key := task]> (tasks s)) (disk s)).

(** [try: body except ValueError as e: handler] *)
Definition try_except_ValueError {A} (body : M A) (handler : exn -> M A) : M A :=
  fun s =>
    match body s with
    | (Raise e, s') => if is_ValueError e then handler e s' else (Raise e, s')
    | r => r
    end.

(** [key in self.tasks] *)
Definition contains (key : string) (ts : gmap string TaskModel) : bool :=
  if ts !! key is Some _ then true else false.

(** The document [save_tasks] dumps: one member per stored task. *)
Definition dump_tasks (ts : gmap string TaskModel) : json :=
  JObj (map (fun kt => (fst kt, task_json (snd kt))) (map_to_list ts)).

Definition save_tasks : M unit := fun s =>
  (Return tt,
   mk_state (filename s) (tasks s) (<[filename s := dump_tasks (tasks s)]> (disk s))).

(** The dict comprehension of [load_tasks]: the entries are parsed in
    order, the first failure raises and the entries after it are not
    looked at. *)
Fixpoint parse_items (now : datetime) (items : list (string * json))
    : option (outcome (list (string * TaskModel))) :=
  match items with
  | [] => Some (Return [])
  | (k, task_data) :: r =>
      match parse_obj now task_data with
      | Some (Return t) =>
          match parse_items now r with
          | Some (Return ts) => Some (Return ((k, t) :: ts))
          | other => other
          end
      | Some (Raise e) => Some (Raise e)
      | None => None
      end
  end.

(** A missing file leaves [self.tasks] as it is, and so does a load that
    raises; a document that is not an object has no [items]. The keys of
    [dict_items] are distinct, so the parsed entries make up the new
    mapping. The result is [None] where [parse_obj] is. *)
Definition load_tasks (now : datetime) (s : state) : option (outcome unit * state) :=
  match disk s !! filename s with
  | None => Some (Return tt, s)
  | Some (JObj members) =>
      match parse_items now (dict_items members) with
      | Some (Return ts) => Some (Return tt, mk_state (filename s) (list_to_map ts) (disk s))
      | Some (Raise e) => Some (Raise e, s)
      | None => None
      end
  | Some _ => Some (Raise AttributeError, s)
  end.

(** [TaskManager(filename)] *)
Definition TaskManager_init (now : datetime) (file : string) (files : gmap string json)
    : option (outcome unit * state) :=
  load_tasks now (mk_state file ∅ files).

Definition add_task (task : TaskModel) : M bool :=
  ts ← get_tasks;
  if contains (title task) ts then mret false
  else if existsb (fun dep => negb (contains dep ts)) (dependencies task) then mret false
  else
    set_item (title task) task ;;
    save_tasks ;;
    mret true.

(** Truth value of an [Optional[int]]. *)
Definition truthy (v : option Z) : bool :=
  match v with
  | Some i => negb (i =? 0)
  | None => false
  end.

(** [task.deadline + timedelta(days=task.recurrence_interval) if
    task.deadline else None] *)
Definition new_deadline (task : TaskModel) : outcome (option datetime) :=
  match deadline task with
  | Some d =>
      match datetime_add_days d (default 0 (recurrence_interval task)) with
      | Return d' => Return (Some d')
      | Raise e => Raise e
      end
  | None => Return None
  end.

Definition recurring_suffix : string := " (Recurring)".

(** The stored object is updated in place before anything else; the
    warning printed by the handler is not part of the state. The new
    deadline is computed outside the [try]. *)
Definition complete_task (now : datetime) (key : string) : M bool :=
  ts ← get_tasks;
  match ts !! key with
  | None => mret false
  | Some stored =>
      let task := set_completed stored in
      set_item key task ;;
      (if recurring task && truthy (recurrence_interval task) then
         nd ← lift (new_deadline task);
         try_except_ValueError
           (new_task ← lift (TaskModel_new now (title task +:+ recurring_suffix)
                               (priority task) nd (dependencies task) true
                               (recurrence_interval task));
            add_task new_task ;;
            mret tt)
           (fun _ => mret tt)
       else mret tt) ;;
      save_tasks ;;
      mret true
  end.

(** The list comprehension [[dep for dep in task.dependencies if not
    self.tasks[dep].completed]]: the subscript raises on a missing key. *)
Fixpoint pending_of (ts : gmap string TaskModel) (deps : list string)
    : outcome (list string) :=
  match deps with
  | [] => Return []
  | dep :: r =>
      match ts !! dep with
      | None => Raise (KeyError dep)
      | Some t =>
          match pending_of ts r with
          | Return l => Return (if completed t then l else dep :: l)
          | Raise e => Raise e
          end
      end
  end.

Definition get_pending_dependencies (key : string) : M (list string) :=
  ts ← get_tasks;
  match ts !! key with
  | None => mret []
  | Some task => lift (pending_of ts (dependencies task))
  end.

(** *** Sequences of store operations *)

Inductive op :=
  | Add (task : TaskModel)
  | Complete (now : datetime) (key : string)
  | PendingDependencies (key : string).

Definition run_op (o : op) (s : state) : state :=
  match o with
  | Add task => snd (add_task task s)
  | Complete now key => snd (complete_task now key s)
  | PendingDependencies key => snd (get_pending_dependencies key s)
  end.

Definition run_ops (l : list op) (s : state) : state :=
  fold_left (fun s o => run_op o s) l s.


(** ** Vocabulary of the statements *)

(** The call raises. *)
Definition fails {A} (o : outcome A) : Prop := exists e, o = Raise e.

(** The state in which [ts] is the mapping and has been saved. *)
Definition written (s : state) (ts : gmap string TaskModel) : state :=
  mk_state (filename s) ts (<[filename s := dump_tasks ts]> (disk s)).

(** The state in which [ts] is the mapping and nothing was saved. *)
Definition unsaved (s : state) (ts : gmap string TaskModel) : state :=
  mk_state (filename s) ts (disk s).

(** A call of the constructor that leaves [recurrence_interval] out,
    [TaskModel(title=..., priority=..., deadline=..., dependencies=...,
    recurring=...)]. *)
Definition TaskModel_without_interval (now : datetime) (title : string)
    (priority : Priority) (deadline : option datetime) (dependencies : list string)
    (recurring : bool) : outcome TaskModel :=
  model_validate now
    (mk_input (Some title) (Some priority) (Some deadline) (Some dependencies)
       (Some recurring) None None None).

(** Every dependency listed by a stored task is a key of the store. *)
Definition deps_closed (ts : gmap string TaskModel) : Prop :=
  forall k t dep, ts !! k = Some t -> dep ∈ dependencies t -> is_Some (ts !! dep).

(** [dep] names a stored task that is not completed. *)
Definition is_pending (ts : gmap string TaskModel) (dep : string) : bool :=
  match ts !! dep with
  | Some t => negb (completed t)
  | None => false
  end.

(** A well-formed task value: a title of 1 to 100 characters, datetimes
    of the calendar, and a recurrence pair that is set together, with the
    interval within its bounds. *)
Definition valid_task (t : TaskModel) : Prop :=
  (1 <= String.length (title t) <= 100)%nat
  /\ (forall d, deadline t = Some d -> valid_datetime d = true)
  /\ valid_datetime (created_at t) = true
  /\ match recurrence_interval t with
     | Some i => recurring t = true /\ 1 <= i <= 365
     | None => recurring t = false
     end.

(** Every task is stored under its own title. *)
Definition keyed_by_title (ts : gmap string TaskModel) : Prop :=
  forall k t, ts !! k = Some t -> title t = k.

(** Every stored task is a valid task. *)
Definition store_valid (ts : gmap string TaskModel) : Prop :=
  forall k t, ts !! k = Some t -> valid_task t.

(** The file of the store holds the dump of the mapping in memory. *)
Definition synced (s : state) : Prop :=
  disk s !! filename s = Some (dump_tasks (tasks s)).

(** ** The commands

    The commands of the program that call into the store. What a command
    prints is its result: one [printed] per [console.print] it reaches,
    carrying the values the message interpolates. A string is read as the
    sequence of its characters, of code points below 256. *)
Module CLI.

Inductive error_text :=
  | of_fromisoformat (text : string)
  | of_exn (e : exn).

Inductive printed :=
  | dependencies_do_not_exist
  | task_added (title : string)
  | failed_to_add
  | validation_error (e : error_text)
  | cannot_complete (pending : list string)
  | task_completed (title : string)
  | new_recurring_task_created
  | task_not_found (title : string).

(** [all(dep in task_manager.tasks for dep in dependencies)] *)
Definition validate_dependencies (dependencies : list string) : M bool :=
  ts ← get_tasks;
  mret (forallb (fun dep => contains dep ts) dependencies).

(** [str.isspace] on one character below 256: the ASCII blanks and
    separators, NEL and the no-break space. *)
Definition isspace (c : ascii) : bool :=
  existsb (Nat.eqb (nat_of_ascii c)) [9; 10; 11; 12; 13; 28; 29; 30; 31; 32; 133; 160]%nat.

Fixpoint lstrip (s : string) : string :=
  match s with
  | String c r => if isspace c then lstrip r else s
  | EmptyString => EmptyString
  end.

Fixpoint rstrip (s : string) : string :=
  match s with
  | String c r =>
      match rstrip r with
      | EmptyString => if isspace c then EmptyString else String c EmptyString
      | r' => String c r'
      end
  | EmptyString => EmptyString
  end.

(** [dep.strip()] *)
Definition strip (s : string) : string := rstrip (lstrip s).

(** [s.split(sep)] for a separator of one character: the segments
    between the separators, empty ones included. *)
Fixpoint split (sep : ascii) (s : string) : list string :=
  match s with
  | String c r =>
      if Ascii.eqb c sep then EmptyString :: split sep r
      else match split sep r with
           | seg :: segs => String c seg :: segs
           | [] => [String c EmptyString]
           end
  | EmptyString => [EmptyString]
  end.

(** [[dep.strip() for dep in deps.split(",")] if deps else []] *)
Definition parse_deps (deps : string) : list string :=
  match deps with
  | EmptyString => []
  | _ => map strip (split ","%char deps)
  end.

Section WithDatetimeParser.

(** [datetime.fromisoformat] on the text of the option, [None] being
    its [ValueError]; texts that carry a UTC offset are outside the
    model. *)
Variable fromisoformat : string -> option datetime.

(** [datetime.fromisoformat(deadline) if deadline else None] *)
Definition parse_deadline (deadline : option string) : option (option datetime) :=
  match deadline with
  | None | Some EmptyString => Some None
  | Some text => option_map Some (fromisoformat text)
  end.

(** The command [add]. *)
Definition add (now : datetime) (title : string) (priority : Priority)
    (deadline : option string) (deps : string) (rec : bool)
    (interval : option Z) : M (list printed) :=
  match parse_deadline deadline with
  | None => mret [validation_error (of_fromisoformat (default EmptyString deadline))]
  | Some deadline_dt =>
      let dependencies := parse_deps deps in
      ok ← validate_dependencies dependencies;
      if negb ok then (mret [dependencies_do_not_exist] : M (list printed))
      else
        try_except_ValueError
          (task ← lift (TaskModel_new now title priority deadline_dt dependencies
                          rec (if rec then interval else None));
           added ← add_task task;
           if added : bool then mret [task_added title]
           else (mret [failed_to_add] : M (list printed)))
          (fun e => mret [validation_error (of_exn e)])
  end.

End WithDatetimeParser.

(** The command [done]. *)
Definition complete (now : datetime) (title : string) : M (list printed) :=
  pending_deps ← get_pending_dependencies title;
  match pending_deps with
  | _ :: _ => mret [cannot_complete pending_deps]
  | [] =>
      ok ← complete_task now title;
      if ok : bool then
        ts ← get_tasks;
        match ts !! title with
        | Some task =>
            mret (task_completed title
                  :: if recurring task then [new_recurring_task_created] else [])
        | None => lift (Raise (KeyError title))
        end
      else mret [task_not_found title]
  end.

End CLI.

(** An operation whose argument is well formed: a valid task to add, a
    clock reading that is a datetime of the calendar. *)
Definition op_valid (o : op) : Prop :=
  match o with
  | Add task => valid_task task
  | Complete now _ => valid_datetime now = true
  | PendingDependencies _ => True
  end.
(** * Properties *)

(** ** Validation *)

Lemma lex_compare_refl (l : list Z) : lex_compare l l = Eq.
Proof.
  induction l as [|x l IH]; simpl; [reflexivity|].
  now rewrite Z.compare_refl.
Qed.

Lemma datetime_lt_irrefl (d : datetime) : datetime_lt d d = false.
Proof. unfold datetime_lt, datetime_compare. now rewrite lex_compare_refl. Qed.

Lemma datetime_le_refl (d : datetime) : datetime_le d d = true.
Proof. unfold datetime_le, datetime_compare. now rewrite lex_compare_refl. Qed.


Lemma validate_recurrence_interval_raises (v : option Z) (values : ValidationInfo) :
  validate_recurrence_interval v values = Raise AttributeError.
Proof. reflexivity. Qed.

(** The bounds are checked first; within them, and for [None], the
    validator is called and raises. *)
Lemma check_recurrence_interval_eq (v : option Z) (values : ValidationInfo) :
  check_recurrence_interval v values =
  match v with
  | Some i =>
      if i <? 1 then Return [greater_than_equal "recurrence_interval" 1]
      else if 365 <? i then Return [less_than_equal "recurrence_interval" 365]
      else Raise AttributeError
  | None => Raise AttributeError
  end.
Proof.
  destruct v as [i|]; cbn [check_recurrence_interval];
    now rewrite validate_recurrence_interval_raises.
Qed.

(** Validation of an input that supplies [recurrence_interval], as
    [None] or within the bounds, raises [AttributeError], whatever the
    other fields are. *)
Lemma model_validate_interval_supplied now (i : model_input) (v : option Z) :
  in_recurrence_interval i = Some v ->
  (forall n, v = Some n -> 1 <= n <= 365) ->
  model_validate now i = Raise AttributeError.
Proof.
  intros Hi Hv. unfold model_validate. rewrite Hi, check_recurrence_interval_eq.
  destruct v as [n|]; [|reflexivity].
  specialize (Hv n eq_refl).
  destruct (Z.ltb_spec n 1); [lia|]. destruct (Z.ltb_spec 365 n); [lia|].
  reflexivity.
Qed.

(** The constructor call of the program never returns: it raises
    [AttributeError] from the validator of the interval, or the
    [ValidationError] of an interval outside the bounds. *)
Lemma TaskModel_new_eq now t p dl deps r ri :
  TaskModel_new now t p dl deps r ri =
  Raise (match ri with
         | Some i =>
             if i <? 1 then
               ValidationError (check_title t ++ deadline_must_be_future now dl
                                ++ [greater_than_equal "recurrence_interval" 1])
             else if 365 <? i then
               ValidationError (check_title t ++ deadline_must_be_future now dl
                                ++ [less_than_equal "recurrence_interval" 365])
             else AttributeError
         | None => AttributeError
         end).
Proof.
  unfold TaskModel_new, model_validate.
  cbn [in_title in_priority in_deadline in_dependencies in_recurring
       in_recurrence_interval in_completed in_created_at].
  rewrite check_recurrence_interval_eq.
  destruct ri as [i|]; [|reflexivity].
  unfold required, optional, checked, no_check.
  destruct (i <? 1); [|destruct (365 <? i); [|reflexivity]];
    destruct (check_title t) as [|e1 es1];
    destruct (deadline_must_be_future now dl) as [|e2 es2];
    reflexivity.
Qed.

Lemma TaskModel_new_never_returns now t p dl deps r ri task :
  TaskModel_new now t p dl deps r ri <> Return task.
Proof. rewrite TaskModel_new_eq. discriminate. Qed.

Lemma TaskModel_new_within_bounds now t p dl deps r ri :
  (forall i, ri = Some i -> 1 <= i <= 365) ->
  TaskModel_new now t p dl deps r ri = Raise AttributeError.
Proof.
  intros H. apply (model_validate_interval_supplied now _ ri); [reflexivity | exact H].
Qed.

(** The constructor call that leaves the interval out, by the issues of
    its two guarded fields. *)
Lemma TaskModel_without_interval_eq now t p dl deps r :
  TaskModel_without_interval now t p dl deps r =
  match check_title t ++ deadline_must_be_future now dl with
  | [] => Return (mk_TaskModel t p dl deps r None false now)
  | es => Raise (ValidationError es)
  end.
Proof.
  unfold TaskModel_without_interval, model_validate, required, optional, checked, no_check.
  cbn [in_title in_priority in_deadline in_dependencies in_recurring
       in_recurrence_interval in_completed in_created_at].
  destruct (check_title t) as [|e1 es1];
    destruct (deadline_must_be_future now dl) as [|e2 es2];
    cbn; rewrite ?app_nil_r; reflexivity.
Qed.

Lemma check_title_ok (t : string) :
  (1 <= String.length t <= 100)%nat <-> check_title t = [].
Proof.
  unfold check_title.
  destruct (Nat.ltb_spec (String.length t) 1);
    destruct (Nat.ltb_spec 100 (String.length t)); split; intros; try lia;
    try discriminate; reflexivity.
Qed.

Lemma deadline_ok now (dl : option datetime) :
  (forall d, dl = Some d -> datetime_lt d now = false)
  <-> deadline_must_be_future now dl = [].
Proof.
  unfold deadline_must_be_future.
  destruct dl as [d|]; [|split; [reflexivity | intros _ d H; discriminate H]].
  destruct (datetime_lt d now) eqn:E; split; intros H; try reflexivity; try discriminate.
  - specialize (H d eq_refl). congruence.
  - intros d' [= <-]. exact E.
Qed.

(** With a valid title and the interval left out, construction fails
    exactly when the deadline is present and before [now]. *)
Lemma construction_fails_iff_deadline_before_now now t p dl deps r :
  (1 <= String.length t <= 100)%nat ->
  fails (TaskModel_without_interval now t p dl deps r)
  <-> exists d, dl = Some d /\ datetime_lt d now = true.
Proof.
  intros Ht%check_title_ok.
  rewrite TaskModel_without_interval_eq, Ht. cbn [app].
  unfold deadline_must_be_future. destruct dl as [d|].
  - destruct (datetime_lt d now) eqn:E; split.
    + intros _. eauto.
    + intros _. eexists. reflexivity.
    + intros [e He]. discriminate.
    + intros (d' & [= <-] & H). congruence.
  - split; [intros [e He]; discriminate | intros (d & Hd & _); discriminate].
Qed.

(** C1 (the code departs from the claim). A deadline equal to the clock
    reading of the validator, which is not later than now, is accepted:
    [deadline_must_be_future] rejects [v < now] only. The call is
    [TaskModel(title=..., priority=..., deadline=...)], the other fields
    left out. *)
Theorem deadline_equal_to_now_is_accepted :
  let now := mk_datetime 2025 6 1 12 0 0 0 in
  datetime_le now now = true
  /\ deadline_must_be_future now (Some now) = []
  /\ model_validate now
       (mk_input (Some "Pay rent"%string) (Some HIGH) (Some (Some now))
          None None None None None)
     = Return (mk_TaskModel "Pay rent" HIGH (Some now) [] false None false now)
  /\ ~ fails (TaskModel_without_interval now "Pay rent" HIGH (Some now) [] false).
Proof.
  cbv zeta. split; [reflexivity|]. split; [reflexivity|]. split; [reflexivity|].
  intros [e He]. discriminate He.
Qed.

(** C10 (the code departs from the claim). The recurrence pair is never
    checked. Whenever the interval is passed, as [None] or within 1..365,
    the validator raises [AttributeError] before it compares anything, so
    the matched pairs, recurring with an interval and neither, are not
    constructed; and with the interval left out the validator does not
    run, so a recurring task without interval is constructed. *)
Theorem recurrence_pair_is_not_checked now t p dl deps r :
  (1 <= String.length t <= 100)%nat ->
  (forall d, dl = Some d -> datetime_lt d now = false) ->
  (forall ri,
     (forall i, ri = Some i -> 1 <= i <= 365) ->
     TaskModel_new now t p dl deps r ri = Raise AttributeError)
  /\ TaskModel_without_interval now t p dl deps r
     = Return (mk_TaskModel t p dl deps r None false now).
Proof.
  intros Ht%check_title_ok Hd%deadline_ok. split.
  - intros ri. apply TaskModel_new_within_bounds.
  - now rewrite TaskModel_without_interval_eq, Ht, Hd.
Qed.

Lemma recurrence_pair_is_not_checked_witness :
  let now := mk_datetime 2025 6 1 12 0 0 0 in
  TaskModel_new now "Water plants" LOW None [] true (Some 7) = Raise AttributeError
  /\ TaskModel_new now "Water plants" LOW None [] false None = Raise AttributeError
  /\ TaskModel_without_interval now "Water plants" LOW None [] true
     = Return (mk_TaskModel "Water plants" LOW None [] true None false now).
Proof.
  intros now.
  assert (Ht : (1 <= String.length "Water plants" <= 100)%nat) by (cbn; lia).
  assert (Hd : forall d, @None datetime = Some d -> datetime_lt d now = false)
    by (intros d H; discriminate H).
  assert (Hn : forall i, @None Z = Some i -> 1 <= i <= 365)
    by (intros i H; discriminate H).
  assert (Hs : forall i, Some 7 = Some i -> 1 <= i <= 365)
    by (intros i H; injection H as <-; lia).
  split; [|split].
  - exact (proj1 (recurrence_pair_is_not_checked now "Water plants" LOW None [] true
                    Ht Hd) (Some 7) Hs).
  - exact (proj1 (recurrence_pair_is_not_checked now "Water plants" LOW None [] false
                    Ht Hd) None Hn).
  - exact (proj2 (recurrence_pair_is_not_checked now "Water plants" LOW None [] true
                    Ht Hd)).
Defined.

(** ** The store operations, by cases *)

Lemma contains_true key (ts : gmap string TaskModel) :
  contains key ts = true <-> is_Some (ts !! key).
Proof.
  unfold contains. destruct (ts !! key); split; intros H; try reflexivity.
  - eauto.
  - discriminate.
  - destruct H as [x H]. discriminate.
Qed.

Lemma contains_false key (ts : gmap string TaskModel) :
  contains key ts = false <-> ts !! key = None.
Proof.
  unfold contains. destruct (ts !! key); split; intros H; congruence.
Qed.

Lemma missing_dep_true (ts : gmap string TaskModel) (deps : list string) :
  existsb (fun dep => negb (contains dep ts)) deps = true
  <-> exists dep, dep ∈ deps /\ ts !! dep = None.
Proof.
  rewrite existsb_exists. split; intros (dep & Hin & H); exists dep.
  - apply list_elem_of_In in Hin. apply negb_true_iff, contains_false in H. auto.
  - apply list_elem_of_In in Hin. split; [exact Hin|].
    apply negb_true_iff, contains_false. exact H.
Qed.

Lemma missing_dep_false (ts : gmap string TaskModel) (deps : list string) :
  existsb (fun dep => negb (contains dep ts)) deps = false
  <-> forall dep, dep ∈ deps -> is_Some (ts !! dep).
Proof.
  split.
  - intros H dep Hin. apply contains_true.
    destruct (contains dep ts) eqn:E; [reflexivity|].
    assert (existsb (fun dep => negb (contains dep ts)) deps = true); [|congruence].
    apply existsb_exists. exists dep. rewrite E. split; [|reflexivity].
    now apply list_elem_of_In.
  - intros H. destruct (existsb _ deps) eqn:E; [|reflexivity].
    apply missing_dep_true in E as (dep & Hin & Hnone).
    destruct (H dep Hin) as [x Hx]. congruence.
Qed.

Lemma add_task_eq (task : TaskModel) (s : state) :
  add_task task s =
  if contains (title task) (tasks s) then (Return false, s)
  else if existsb (fun dep => negb (contains dep (tasks s))) (dependencies task)
       then (Return false, s)
       else (Return true, written s (<[title task := task]> (tasks s))).
Proof.
  unfold add_task, mbind, M_bind, get_tasks, mret, M_ret.
  destruct (contains _ _); [reflexivity|].
  destruct (existsb _ _); reflexivity.
Qed.

Lemma new_deadline_raises t e : new_deadline t = Raise e -> e = OverflowError.
Proof.
  unfold new_deadline, datetime_add_days. destruct (deadline t); [|discriminate].
  destruct (match default 0 (recurrence_interval t) with 0 => _ | _ => _ end);
    intros H; inversion H. reflexivity.
Qed.

(** [complete_task] on a stored key, step by step. *)
Lemma complete_task_eq now key (s : state) :
  complete_task now key s =
  match tasks s !! key with
  | None => (Return false, s)
  | Some stored =>
      let task := set_completed stored in
      let ts1 := <[key := task]> (tasks s) in
      if recurring task && truthy (recurrence_interval task) then
        match new_deadline task with
        | Raise e => (Raise e, unsaved s ts1)
        | Return nd =>
            match TaskModel_new now (title task +:+ recurring_suffix) (priority task)
                    nd (dependencies task) true (recurrence_interval task) with
            | Return new_task =>
                (Return true, written s (tasks (snd (add_task new_task (unsaved s ts1)))))
            | Raise e =>
                if is_ValueError e then (Return true, written s ts1)
                else (Raise e, unsaved s ts1)
            end
        end
      else (Return true, written s ts1)
  end.
Proof.
  unfold complete_task. unfold mbind at 1. unfold M_bind at 1. unfold get_tasks at 1.
  destruct (tasks s !! key) as [stored|]; [|reflexivity].
  cbv zeta. set (task := set_completed stored).
  unfold mbind, M_bind, set_item, mret, M_ret, lift, save_tasks, try_except_ValueError.
  cbn [filename tasks disk].
  destruct (recurring task && truthy (recurrence_interval task)); [|reflexivity].
  destruct (new_deadline task) as [nd|e]; [|reflexivity].
  destruct (TaskModel_new _ _ _ _ _ _ _) as [nt|e] eqn:E.
  - unfold unsaved. rewrite !add_task_eq. cbn [tasks].
    destruct (contains _ _); [reflexivity|].
    destruct (existsb _ _); [reflexivity|].
    unfold written. cbn. now rewrite insert_insert_eq.
  - destruct (is_ValueError e); reflexivity.
Qed.

(** [complete_task] on a stored task, by what the constructor of the
    successor does: no successor is ever added, the call raises for an
    interval within 1..365 and the handler takes the [ValidationError]
    of any other interval. *)
Lemma complete_task_stored now key (s : state) (t : TaskModel) :
  tasks s !! key = Some t ->
  let ts1 := <[key := set_completed t]> (tasks s) in
  complete_task now key s =
  if recurring t && truthy (recurrence_interval t) then
    match new_deadline t with
    | Raise e => (Raise e, unsaved s ts1)
    | Return _ =>
        match recurrence_interval t with
        | Some i =>
            if (i <? 1) || (365 <? i) then (Return true, written s ts1)
            else (Raise AttributeError, unsaved s ts1)
        | None => (Raise AttributeError, unsaved s ts1)
        end
    end
  else (Return true, written s ts1).
Proof.
  intros Ht. cbv zeta. rewrite complete_task_eq, Ht. cbv zeta.
  change (recurring (set_completed t)) with (recurring t).
  change (recurrence_interval (set_completed t)) with (recurrence_interval t).
  change (new_deadline (set_completed t)) with (new_deadline t).
  destruct (recurring t && truthy (recurrence_interval t)); [|reflexivity].
  destruct (new_deadline t) as [nd|e]; [|reflexivity].
  rewrite TaskModel_new_eq.
  destruct (recurrence_interval t) as [i|]; [|reflexivity].
  destruct (i <? 1); [reflexivity|]. destruct (365 <? i); reflexivity.
Qed.

(** ** Adding *)

(** C2. [add_task] returns false and leaves the mapping and the file as
    they are when the title is already stored or some listed dependency
    is not; otherwise it stores the task under its title, saves and
    returns true. Hence, for a valid title with no deadline, dependency or
    recurrence that is not stored yet, the two tasks are constructed, the
    first add succeeds and a second add of the same title is refused; the
    constructor is called with the interval left out, the call that
    returns a task. *)
Theorem add_task_refuses_or_inserts (s : state) :
  (forall task,
     is_Some (tasks s !! title task)
     \/ (exists dep, dep ∈ dependencies task /\ tasks s !! dep = None) ->
     add_task task s = (Return false, s))
  /\ (forall task,
        tasks s !! title task = None ->
        (forall dep, dep ∈ dependencies task -> is_Some (tasks s !! dep)) ->
        add_task task s = (Return true, written s (<[title task := task]> (tasks s))))
  /\ (forall now now' t p p',
        (1 <= String.length t <= 100)%nat ->
        tasks s !! t = None ->
        exists first second,
          TaskModel_without_interval now t p None [] false = Return first
          /\ TaskModel_without_interval now' t p' None [] false = Return second
          /\ let s1 := snd (add_task first s) in
             fst (add_task first s) = Return true
             /\ add_task second s1 = (Return false, s1)).
Proof.
  split; [|split].
  - intros task H. rewrite add_task_eq.
    destruct (contains (title task) (tasks s)) eqn:Ec; [reflexivity|].
    destruct H as [H|H].
    + apply contains_true in H. congruence.
    + apply missing_dep_true in H. now rewrite H.
  - intros task Hnew Hdeps. rewrite add_task_eq.
    apply contains_false in Hnew. apply missing_dep_false in Hdeps.
    now rewrite Hnew, Hdeps.
  - intros now now' t p p' Ht%check_title_ok Hnew.
    exists (mk_TaskModel t p None [] false None false now),
           (mk_TaskModel t p' None [] false None false now').
    rewrite !TaskModel_without_interval_eq, Ht. cbn [app deadline_must_be_future].
    split; [reflexivity|]. split; [reflexivity|].
    cbv zeta. rewrite !add_task_eq. cbn [title dependencies existsb].
    apply contains_false in Hnew. rewrite Hnew. cbn [fst snd].
    split; [reflexivity|].
    unfold contains, written. cbn [tasks]. now rewrite lookup_insert_eq.
Qed.

Lemma add_task_refuses_or_inserts_witness :
  let now := mk_datetime 2025 6 1 12 0 0 0 in
  let later := mk_datetime 2025 6 1 12 5 0 0 in
  let s0 := mk_state "tasks.json" ∅ ∅ in
  let A := mk_TaskModel "A" MEDIUM None [] false None false now in
  let B := mk_TaskModel "B" HIGH None ["A"] false None false now in
  let s1 := written s0 {[ "A" := A ]} in
  add_task A s0 = (Return true, s1)
  /\ add_task A s1 = (Return false, s1)
  /\ add_task B s0 = (Return false, s0)
  /\ add_task B s1 = (Return true, written s1 (<["B" := B]> {[ "A" := A ]}))
  /\ (exists first second,
        TaskModel_without_interval now "A" MEDIUM None [] false = Return first
        /\ TaskModel_without_interval later "A" LOW None [] false = Return second
        /\ fst (add_task first s0) = Return true
        /\ add_task second (snd (add_task first s0))
           = (Return false, snd (add_task first s0))).
Proof.
  intros now later s0 A B s1.
  assert (HA : tasks s0 !! title A = None) by reflexivity.
  assert (HdA : forall dep, dep ∈ dependencies A -> is_Some (tasks s0 !! dep))
    by (intros dep H; inversion H).
  assert (HB : tasks s1 !! title B = None) by reflexivity.
  assert (HdB : forall dep, dep ∈ dependencies B -> is_Some (tasks s1 !! dep)).
  { intros dep H. apply list_elem_of_singleton in H. subst dep.
    exists A. reflexivity. }
  assert (HA1 : is_Some (tasks s1 !! title A)) by (exists A; reflexivity).
  assert (HB0 : exists dep, dep ∈ dependencies B /\ tasks s0 !! dep = None).
  { exists "A"%string. split; [apply list_elem_of_singleton|]; reflexivity. }
  split; [|split; [|split; [|split]]].
  - exact (proj1 (proj2 (add_task_refuses_or_inserts s0)) A HA HdA).
  - exact (proj1 (add_task_refuses_or_inserts s1) A (or_introl HA1)).
  - exact (proj1 (add_task_refuses_or_inserts s0) B (or_intror HB0)).
  - exact (proj1 (proj2 (add_task_refuses_or_inserts s1)) B HB HdB).
  - assert (Ht : (1 <= String.length "A" <= 100)%nat) by (cbn; lia).
    exact (proj2 (proj2 (add_task_refuses_or_inserts s0)) now later "A"%string MEDIUM LOW
             Ht eq_refl).
Defined.

(** ** Pending dependencies *)

Lemma pending_of_present (ts : gmap string TaskModel) (deps : list string) :
  (forall dep, dep ∈ deps -> is_Some (ts !! dep)) ->
  pending_of ts deps = Return (List.filter (is_pending ts) deps).
Proof.
  induction deps as [|dep deps IH]; intros H; [reflexivity|].
  cbn [pending_of List.filter]. unfold is_pending at 1.
  destruct (H dep) as [t Ht]; [left|]. rewrite Ht.
  rewrite IH by (intros d Hd; apply H; now right).
  now destruct (completed t).
Qed.

Lemma pending_of_missing (ts : gmap string TaskModel) (deps : list string) e :
  pending_of ts deps = Raise e ->
  exists dep, dep ∈ deps /\ ts !! dep = None /\ e = KeyError dep.
Proof.
  induction deps as [|dep deps IH]; cbn [pending_of]; [discriminate|].
  destruct (ts !! dep) as [t|] eqn:Ht.
  - destruct (pending_of ts deps) as [l|e'] eqn:E; [discriminate|].
    intros [= <-]. destruct (IH eq_refl) as (d & Hd & Hn & He).
    exists d. split; [now right | auto].
  - intros [= <-]. exists dep. split; [left | auto].
Qed.

(** C7. [get_pending_dependencies] returns the empty list for a title
    that is not stored, without raising; for a stored title whose listed
    dependencies are all stored it returns, in order, exactly the
    dependencies whose task is not completed. The state is not touched. *)
Theorem pending_dependencies_are_the_incomplete_ones (s : state) (key : string) :
  (tasks s !! key = None -> get_pending_dependencies key s = (Return [], s))
  /\ (forall task,
        tasks s !! key = Some task ->
        (forall dep, dep ∈ dependencies task -> is_Some (tasks s !! dep)) ->
        get_pending_dependencies key s
        = (Return (List.filter (is_pending (tasks s)) (dependencies task)), s)).
Proof.
  unfold get_pending_dependencies, mbind, M_bind, get_tasks, mret, M_ret, lift.
  split.
  - intros ->. reflexivity.
  - intros task -> Hdeps. now rewrite pending_of_present.
Qed.

Lemma pending_dependencies_are_the_incomplete_ones_witness :
  let now := mk_datetime 2025 6 1 12 0 0 0 in
  let A := mk_TaskModel "A" MEDIUM None [] false None false now in
  let A' := set_completed A in
  let B := mk_TaskModel "B" HIGH None ["A"] false None false now in
  let s := mk_state "tasks.json" (<["B" := B]> {[ "A" := A ]}) ∅ in
  let s' := mk_state "tasks.json" (<["B" := B]> {[ "A" := A' ]}) ∅ in
  get_pending_dependencies "C" s = (Return [], s)
  /\ get_pending_dependencies "B" s = (Return ["A"%string], s)
  /\ get_pending_dependencies "B" s' = (Return [], s').
Proof.
  intros now A A' B s s'.
  assert (HC : tasks s !! "C"%string = None) by reflexivity.
  assert (HB : tasks s !! "B"%string = Some B) by reflexivity.
  assert (HB' : tasks s' !! "B"%string = Some B) by reflexivity.
  assert (Hd : forall dep, dep ∈ dependencies B -> is_Some (tasks s !! dep)).
  { intros dep H. apply list_elem_of_singleton in H. subst dep. exists A. reflexivity. }
  assert (Hd' : forall dep, dep ∈ dependencies B -> is_Some (tasks s' !! dep)).
  { intros dep H. apply list_elem_of_singleton in H. subst dep. exists A'. reflexivity. }
  split; [|split].
  - exact (proj1 (pending_dependencies_are_the_incomplete_ones s "C") HC).
  - exact (proj2 (pending_dependencies_are_the_incomplete_ones s "B") B HB Hd).
  - exact (proj2 (pending_dependencies_are_the_incomplete_ones s' "B") B HB' Hd').
Defined.

(** ** Completing *)

(** The mapping [complete_task] leaves for a stored key: the task is
    marked and nothing else changes. This also covers the run that
    raises. *)
Lemma complete_task_tasks now key (s : state) (t : TaskModel) :
  tasks s !! key = Some t ->
  tasks (snd (complete_task now key s)) = <[key := set_completed t]> (tasks s).
Proof.
  intros Ht. rewrite (complete_task_stored now key s t Ht).
  destruct (recurring t && truthy (recurrence_interval t)); [|reflexivity].
  destruct (new_deadline t); [|reflexivity].
  destruct (recurrence_interval t) as [i|]; [|reflexivity].
  destruct ((i <? 1) || (365 <? i)); reflexivity.
Qed.

Lemma complete_task_absent now key (s : state) :
  tasks s !! key = None -> complete_task now key s = (Return false, s).
Proof. intros H. now rewrite complete_task_eq, H. Qed.

(** Completing a stored task that is not recurring, or has no interval,
    returns true and saves the mapping in which the task is marked,
    whatever its dependencies are. *)
Lemma complete_task_present now key (s : state) (t : TaskModel) :
  tasks s !! key = Some t ->
  recurring t && truthy (recurrence_interval t) = false ->
  let ts1 := <[key := set_completed t]> (tasks s) in
  complete_task now key s = (Return true, written s ts1)
  /\ ts1 !! key = Some (set_completed t)
  /\ completed (set_completed t) = true
  /\ disk (written s ts1) !! filename s = Some (dump_tasks ts1).
Proof.
  intros Ht Hrec. cbv zeta. rewrite (complete_task_stored now key s t Ht), Hrec.
  split; [reflexivity|]. split; [apply lookup_insert_eq|].
  split; [reflexivity | apply lookup_insert_eq].
Qed.

(** Completing a stored recurring task whose interval lies within
    1..365 raises: [OverflowError] from the deadline addition, or
    [AttributeError] from the constructor of the successor. The task is
    marked in memory and nothing is saved. *)
Lemma complete_task_recurring_raises now key (s : state) (T : TaskModel) (i : Z) :
  tasks s !! key = Some T ->
  recurring T = true ->
  recurrence_interval T = Some i ->
  1 <= i <= 365 ->
  complete_task now key s
  = (Raise (match new_deadline T with
            | Return _ => AttributeError
            | Raise e => e
            end),
     unsaved s (<[key := set_completed T]> (tasks s))).
Proof.
  intros HT Hrec Hi Hb. rewrite (complete_task_stored now key s T HT), Hrec, Hi.
  cbn [andb truthy]. destruct (Z.eqb_spec i 0); [lia|]. cbn [negb].
  destruct (new_deadline T); [|reflexivity].
  destruct (Z.ltb_spec i 1); [lia|]. destruct (Z.ltb_spec 365 i); [lia|].
  reflexivity.
Qed.

(** What the handler does take: with an interval outside 1..365 the
    constructor raises a [ValidationError], and [complete_task] returns
    true and saves the marked task. *)
Lemma complete_task_interval_out_of_bounds now key (s : state) (T : TaskModel) (i : Z) :
  tasks s !! key = Some T ->
  recurrence_interval T = Some i ->
  i < 1 \/ 365 < i ->
  ~ fails (new_deadline T) ->
  complete_task now key s = (Return true, written s (<[key := set_completed T]> (tasks s))).
Proof.
  intros HT Hi Hb Hnd. rewrite (complete_task_stored now key s T HT), Hi.
  destruct (recurring T && truthy (Some i)); [|reflexivity].
  destruct (new_deadline T) as [nd|e]; [|exfalso; apply Hnd; now exists e].
  destruct (Z.ltb_spec i 1); [reflexivity|].
  destruct (Z.ltb_spec 365 i); [reflexivity | lia].
Qed.


(** C4 (the code departs from the claim). For a stored recurring task
    [T] with interval [i] in 1..365, a derived title that is not stored
    and a derived deadline in the future, or absent with the deadline:
    the constructor of the successor raises [AttributeError], which the
    handler does not take, so [complete_task] raises; no successor is
    added, [T] is marked in memory and nothing is saved. *)
Theorem completing_recurring_task_adds_no_successor now (s : state) (T : TaskModel)
    (i : Z) (nd : option datetime) :
  tasks s !! title T = Some T ->
  recurring T = true ->
  recurrence_interval T = Some i ->
  1 <= i <= 365 ->
  tasks s !! (title T +:+ recurring_suffix) = None ->
  match deadline T with
  | Some D =>
      exists D', datetime_add_days D i = Return D'
                 /\ datetime_lt now D' = true /\ nd = Some D'
  | None => nd = None
  end ->
  let s' := snd (complete_task now (title T) s) in
  new_deadline T = Return nd
  /\ TaskModel_new now (title T +:+ recurring_suffix) (priority T) nd
       (dependencies T) true (recurrence_interval T) = Raise AttributeError
  /\ fst (complete_task now (title T) s) = Raise AttributeError
  /\ tasks s' = <[title T := set_completed T]> (tasks s)
  /\ tasks s' !! (title T +:+ recurring_suffix) = None
  /\ completed (set_completed T) = true
  /\ disk s' = disk s.
Proof.
  intros HT Hrec Hi Hb Hfresh Hnd s'.
  assert (Hne : title T <> title T +:+ recurring_suffix).
  { intros E. rewrite <- E in Hfresh. congruence. }
  assert (Hnew : new_deadline T = Return nd).
  { unfold new_deadline. rewrite Hi. change (default 0 (Some i)) with i.
    destruct (deadline T) as [D|].
    - destruct Hnd as (D' & -> & _ & ->). reflexivity.
    - now subst nd. }
  pose proof (complete_task_recurring_raises now (title T) s T i HT Hrec Hi Hb) as Hc.
  rewrite Hnew in Hc. subst s'. rewrite Hc. cbn [fst snd tasks disk unsaved].
  split; [exact Hnew|]. split.
  { apply TaskModel_new_within_bounds. rewrite Hi. now intros i' [= <-]. }
  split; [reflexivity|]. split; [reflexivity|].
  split; [now rewrite lookup_insert_ne|]. split; reflexivity.
Qed.

Lemma completing_recurring_task_adds_no_successor_witness :
  let created := mk_datetime 2025 6 1 12 0 0 0 in
  let now := mk_datetime 2025 6 2 8 0 0 0 in
  let tomorrow := mk_datetime 2025 6 3 9 30 0 0 in
  let R := mk_TaskModel "R" HIGH (Some tomorrow) [] true (Some 3) false created in
  let s := written (mk_state "tasks.json" ∅ ∅) {[ "R" := R ]} in
  fst (complete_task now "R" s) = Raise AttributeError
  /\ tasks (snd (complete_task now "R" s)) = {[ "R" := set_completed R ]}
  /\ disk (snd (complete_task now "R" s)) = disk s.
Proof.
  intros created now tomorrow R s.
  assert (HT : tasks s !! title R = Some R) by reflexivity.
  assert (Hi : 1 <= 3 <= 365) by lia.
  assert (Hfresh : tasks s !! (title R +:+ recurring_suffix) = None) by reflexivity.
  assert (Hnd : match deadline R with
                | Some D =>
                    exists D', datetime_add_days D 3 = Return D'
                               /\ datetime_lt now D' = true
                               /\ Some (mk_datetime 2025 6 6 9 30 0 0) = Some D'
                | None => Some (mk_datetime 2025 6 6 9 30 0 0) = None
                end).
  { exists (mk_datetime 2025 6 6 9 30 0 0).
    split; [reflexivity|]. split; reflexivity. }
  destruct (completing_recurring_task_adds_no_successor now s R 3
              (Some (mk_datetime 2025 6 6 9 30 0 0)) HT eq_refl eq_refl Hi Hfresh Hnd)
    as (_ & _ & Hraise & Hts & _ & _ & Hdisk).
  split; [exact Hraise|]. split; [exact Hts | exact Hdisk].
Defined.

(** C5 (the code departs from the claim). For a stored recurring task
    with an interval in 1..365 the synthesis of the successor always
    fails, and the failure is never taken by the handler: the constructor
    raises [AttributeError] whatever the derived deadline and title are,
    and the deadline addition raises [OverflowError] outside the [try].
    [complete_task] raises that exception, which is not a [ValueError];
    the task is marked in memory and nothing is saved. *)
Theorem recurrence_failure_is_not_swallowed now (s : state) (key : string)
    (T : TaskModel) (i : Z) :
  tasks s !! key = Some T ->
  recurring T = true ->
  recurrence_interval T = Some i ->
  1 <= i <= 365 ->
  let ts1 := <[key := set_completed T]> (tasks s) in
  (forall nd,
     TaskModel_new now (title T +:+ recurring_suffix) (priority T) nd
       (dependencies T) true (recurrence_interval T) = Raise AttributeError)
  /\ (exists e,
        complete_task now key s = (Raise e, unsaved s ts1)
        /\ is_ValueError e = false
        /\ match new_deadline T with
           | Return _ => e = AttributeError
           | Raise _ => e = OverflowError
           end)
  /\ ts1 !! key = Some (set_completed T)
  /\ completed (set_completed T) = true
  /\ disk (unsaved s ts1) = disk s.
Proof.
  intros HT Hrec Hi Hb ts1. split; [|split; [|split; [|split]]].
  - intros nd. apply TaskModel_new_within_bounds. rewrite Hi. now intros i' [= <-].
  - rewrite (complete_task_recurring_raises now key s T i HT Hrec Hi Hb).
    destruct (new_deadline T) as [nd|e] eqn:E.
    + exists AttributeError. split; [reflexivity|]. split; reflexivity.
    + apply new_deadline_raises in E. subst e.
      exists OverflowError. split; [reflexivity|]. split; reflexivity.
  - apply lookup_insert_eq.
  - reflexivity.
  - reflexivity.
Qed.

Lemma recurrence_failure_is_not_swallowed_witness :
  let created := mk_datetime 2025 6 1 12 0 0 0 in
  let late := mk_datetime 2025 7 1 8 0 0 0 in
  let early := mk_datetime 2025 6 2 8 0 0 0 in
  let R := mk_TaskModel "R" HIGH (Some (mk_datetime 2025 6 3 0 0 0 0)) [] true
             (Some 3) false created in
  let R2 := mk_TaskModel "R (Recurring)" HIGH None [] false None false created in
  let s := written (mk_state "tasks.json" ∅ ∅) {[ "R" := R ]} in
  let s2 := written (mk_state "tasks.json" ∅ ∅) (<["R (Recurring)" := R2]> {[ "R" := R ]}) in
  new_deadline R = Return (Some (mk_datetime 2025 6 6 0 0 0 0))
  /\ datetime_lt (mk_datetime 2025 6 6 0 0 0 0) late = true
  /\ complete_task late "R" s
     = (Raise AttributeError, unsaved s {[ "R" := set_completed R ]})
  /\ is_Some (tasks s2 !! "R (Recurring)")
  /\ complete_task early "R" s2
     = (Raise AttributeError,
        unsaved s2 (<["R (Recurring)" := R2]> {[ "R" := set_completed R ]})).
Proof.
  intros created late early R R2 s s2.
  assert (HT : tasks s !! "R"%string = Some R) by reflexivity.
  assert (HT2 : tasks s2 !! "R"%string = Some R) by reflexivity.
  assert (Hi : 1 <= 3 <= 365) by lia.
  split; [reflexivity|]. split; [reflexivity|]. split; [|split].
  - destruct (recurrence_failure_is_not_swallowed late s "R" R 3 HT eq_refl eq_refl Hi)
      as (_ & (e & Hc & _ & He) & _).
    change (e = AttributeError) in He. subst e. exact Hc.
  - exists R2. reflexivity.
  - destruct (recurrence_failure_is_not_swallowed early s2 "R" R 3 HT2 eq_refl eq_refl Hi)
      as (_ & (e & Hc & _ & He) & _).
    change (e = AttributeError) in He. subst e. exact Hc.
Defined.

(** ** Invariants of the store *)

Lemma deps_closed_insert (ts : gmap string TaskModel) (k : string) (t : TaskModel) :
  deps_closed ts ->
  (forall dep, dep ∈ dependencies t -> is_Some (<[k := t]> ts !! dep)) ->
  deps_closed (<[k := t]> ts).
Proof.
  intros Hts Ht k' t' dep Hk' Hin.
  destruct (decide (k = k')) as [<-|Hne].
  - rewrite lookup_insert_eq in Hk'. injection Hk' as <-. now apply Ht.
  - rewrite lookup_insert_ne in Hk' by exact Hne.
    apply lookup_insert_is_Some'. right. exact (Hts k' t' dep Hk' Hin).
Qed.

Lemma add_task_deps_closed (task : TaskModel) (s : state) :
  deps_closed (tasks s) -> deps_closed (tasks (snd (add_task task s))).
Proof.
  intros H. rewrite add_task_eq.
  destruct (contains _ _); [exact H|].
  destruct (existsb _ _) eqn:Ed; [exact H|].
  cbn [snd written tasks]. apply deps_closed_insert; [exact H|].
  intros dep Hin. apply lookup_insert_is_Some'. right.
  now apply (proj1 (missing_dep_false _ _) Ed).
Qed.

Lemma complete_task_deps_closed now key (s : state) :
  deps_closed (tasks s) -> deps_closed (tasks (snd (complete_task now key s))).
Proof.
  intros H. destruct (tasks s !! key) as [t|] eqn:Ht.
  - rewrite (complete_task_tasks now key s t Ht).
    apply deps_closed_insert; [exact H|].
    intros dep Hin. apply lookup_insert_is_Some'. right.
    exact (H key t dep Ht Hin).
  - now rewrite complete_task_absent.
Qed.

Lemma get_pending_dependencies_state key (s : state) :
  snd (get_pending_dependencies key s) = s.
Proof.
  unfold get_pending_dependencies, mbind, M_bind, get_tasks, mret, M_ret, lift.
  now destruct (tasks s !! key).
Qed.

Lemma run_op_deps_closed (o : op) (s : state) :
  deps_closed (tasks s) -> deps_closed (tasks (run_op o s)).
Proof.
  destruct o as [task|now key|key]; cbn [run_op].
  - apply add_task_deps_closed.
  - apply complete_task_deps_closed.
  - now rewrite get_pending_dependencies_state.
Qed.

(** C8. The empty store lists no missing dependency; [add_task] and
    [complete_task], on the run that raises too, keep every listed
    dependency stored, so this holds in every state that a sequence of
    store operations reaches from a state where it holds; and where it
    holds, the lookups of [get_pending_dependencies] find their task: the
    call returns a list and raises no [KeyError]. *)
Theorem dependencies_stay_stored :
  deps_closed ∅
  /\ (forall task s,
        deps_closed (tasks s) -> deps_closed (tasks (snd (add_task task s))))
  /\ (forall now key s,
        deps_closed (tasks s) -> deps_closed (tasks (snd (complete_task now key s))))
  /\ (forall ops s, deps_closed (tasks s) -> deps_closed (tasks (run_ops ops s)))
  /\ (forall key s,
        deps_closed (tasks s) ->
        exists pending, get_pending_dependencies key s = (Return pending, s)).
Proof.
  split; [|split; [|split; [|split]]].
  - intros k t dep H. rewrite lookup_empty in H. discriminate.
  - apply add_task_deps_closed.
  - apply complete_task_deps_closed.
  - intros ops. induction ops as [|o ops IH]; intros s H; [exact H|].
    cbn [run_ops fold_left]. apply IH. now apply run_op_deps_closed.
  - intros key s H.
    unfold get_pending_dependencies, mbind, M_bind, get_tasks, mret, M_ret, lift.
    destruct (tasks s !! key) as [t|] eqn:Ht; [|eexists; reflexivity].
    rewrite pending_of_present; [eexists; reflexivity|].
    intros dep Hin. exact (H key t dep Ht Hin).
Qed.

Lemma dependencies_stay_stored_witness :
  let now := mk_datetime 2025 6 1 12 0 0 0 in
  let A := mk_TaskModel "A" MEDIUM None [] false None false now in
  let B := mk_TaskModel "B" HIGH None ["A"] true None false now in
  let orphan := mk_TaskModel "C" LOW None ["Z"] false None false now in
  let s := run_ops [Add A; Add orphan; Add B; Complete now "B"; Complete now "A"]
             (mk_state "tasks.json" ∅ ∅) in
  deps_closed (tasks s)
  /\ exists pending, get_pending_dependencies "B" s = (Return pending, s).
Proof.
  intros now A B orphan s.
  assert (H : deps_closed (tasks s)).
  { apply (proj1 (proj2 (proj2 (proj2 dependencies_stay_stored)))).
    exact (proj1 dependencies_stay_stored). }
  split; [exact H|].
  exact (proj2 (proj2 (proj2 (proj2 dependencies_stay_stored))) "B" s H).
Defined.

(** ** The completed flag *)

Lemma add_task_keeps (task : TaskModel) (s : state) k t :
  tasks s !! k = Some t -> tasks (snd (add_task task s)) !! k = Some t.
Proof.
  intros H. rewrite add_task_eq.
  destruct (contains (title task) (tasks s)) eqn:Ec; [exact H|].
  destruct (existsb _ _); [exact H|].
  cbn [snd written tasks]. rewrite lookup_insert_ne; [exact H|].
  intros <-. apply contains_false in Ec. congruence.
Qed.

Lemma complete_task_lookup now key (s : state) k t :
  tasks s !! k = Some t ->
  tasks (snd (complete_task now key s)) !! k
  = Some (if decide (k = key) then set_completed t else t).
Proof.
  intros H. destruct (tasks s !! key) as [t0|] eqn:Ht0.
  - rewrite (complete_task_tasks now key s t0 Ht0).
    destruct (decide (k = key)) as [->|Hne].
    + rewrite lookup_insert_eq. congruence.
    + rewrite lookup_insert_ne by congruence. exact H.
  - rewrite complete_task_absent by exact Ht0. cbn [snd].
    destruct (decide (k = key)) as [->|Hne]; [congruence | exact H].
Qed.

(** C9. Over any sequence of [add_task], [complete_task] and
    [get_pending_dependencies], a stored task that is completed stays
    stored and completed. [add_task] and [get_pending_dependencies] leave
    every stored task as it is, [add_task] never replacing a stored title;
    [complete_task] changes the stored task of its own key only, and only
    by setting [completed] to true. *)
Theorem completed_is_never_reset :
  (forall ops s k t,
     tasks s !! k = Some t -> completed t = true ->
     exists t', tasks (run_ops ops s) !! k = Some t' /\ completed t' = true)
  /\ (forall task s k t,
        tasks s !! k = Some t -> tasks (run_op (Add task) s) !! k = Some t)
  /\ (forall key s k t,
        tasks s !! k = Some t ->
        tasks (run_op (PendingDependencies key) s) !! k = Some t)
  /\ (forall now key s k t,
        tasks s !! k = Some t ->
        tasks (run_op (Complete now key) s) !! k
        = Some (if decide (k = key) then set_completed t else t)).
Proof.
  assert (Hadd : forall task s k t,
            tasks s !! k = Some t -> tasks (run_op (Add task) s) !! k = Some t)
    by (intros; now apply add_task_keeps).
  assert (Hpend : forall key s k t,
            tasks s !! k = Some t ->
            tasks (run_op (PendingDependencies key) s) !! k = Some t)
    by (intros key s k t H; cbn [run_op]; now rewrite get_pending_dependencies_state).
  assert (Hcomp : forall now key s k t,
            tasks s !! k = Some t ->
            tasks (run_op (Complete now key) s) !! k
            = Some (if decide (k = key) then set_completed t else t))
    by (intros; now apply complete_task_lookup).
  split; [|split; [|split]]; try assumption.
  intros ops. induction ops as [|o ops IH]; intros s k t Hk Hc.
  - exists t. split; assumption.
  - cbn [run_ops fold_left].
    destruct o as [task|now key|key].
    + apply (IH _ k t); [now apply Hadd | exact Hc].
    + apply (IH _ k (if decide (k = key) then set_completed t else t));
        [now apply Hcomp|].
      destruct (decide (k = key)); [reflexivity | exact Hc].
    + apply (IH _ k t); [now apply Hpend | exact Hc].
Qed.

Lemma completed_is_never_reset_witness :
  let now := mk_datetime 2025 6 1 12 0 0 0 in
  let A := mk_TaskModel "A" MEDIUM None [] true None true now in
  let s := mk_state "tasks.json" {[ "A" := A ]} ∅ in
  exists t', tasks (run_ops [Add A; Complete now "A"; PendingDependencies "A";
                             Complete now "B"; Add A] s) !! "A"
             = Some t'
             /\ completed t' = true.
Proof.
  intros now A s.
  assert (H : tasks s !! "A"%string = Some A) by reflexivity.
  exact (proj1 completed_is_never_reset _ s "A" A H eq_refl).
Defined.

(** ** Saving and loading *)

Lemma digit_val_char (n : Z) : 0 <= n < 10 -> digit_val (digit_char n) = Some n.
Proof.
  intros H. replace n with (Z.of_nat (Z.to_nat n)) by lia.
  assert (Hm : (Z.to_nat n < 10)%nat) by lia.
  revert Hm. generalize (Z.to_nat n). intros m Hm.
  do 10 (destruct m as [|m]; [reflexivity|]). lia.
Qed.

Lemma read_digits_zero_pad (w : nat) (n acc : Z) (rest : list ascii) :
  read_digits w acc (zero_pad w n ++ rest)
  = Some (acc * 10 ^ Z.of_nat w + n mod 10 ^ Z.of_nat w, rest).
Proof.
  revert acc. induction w as [|w IH]; intros acc.
  - cbn [read_digits zero_pad app]. rewrite Z.mod_1_r. f_equal. f_equal.
    change (10 ^ Z.of_nat 0) with 1. lia.
  - cbn [read_digits zero_pad app].
    rewrite digit_val_char by (apply Z.mod_pos_bound; lia).
    rewrite IH. f_equal. f_equal.
    rewrite Nat2Z.inj_succ, Z.pow_succ_r by lia.
    rewrite (Z.mul_comm 10 (10 ^ Z.of_nat w)).
    rewrite (Z.rem_mul_r n (10 ^ Z.of_nat w) 10) by lia. lia.
Qed.

Lemma read_digits_in_range (w : nat) (n : Z) (rest : list ascii) :
  0 <= n < 10 ^ Z.of_nat w ->
  read_digits w 0 (zero_pad w n ++ rest) = Some (n, rest).
Proof.
  intros H. rewrite read_digits_zero_pad, Z.mod_small by exact H. reflexivity.
Qed.

Lemma days_in_month_le (y m : Z) : days_in_month y m <= 31.
Proof.
  unfold days_in_month.
  destruct (m =? 2); [destruct (is_leap y); lia|].
  destruct ((m =? 4) || (m =? 6) || (m =? 9) || (m =? 11)); lia.
Qed.

Lemma expect_same (c : ascii) (l : list ascii) : expect c (c :: l) = Some l.
Proof. unfold expect. now rewrite Ascii.eqb_refl. Qed.

Ltac read_field :=
  rewrite read_digits_in_range by (cbn; lia); cbn [mbind option_bind].

Ltac read_separator :=
  rewrite expect_same; cbn [mbind option_bind].

(** What [isoformat] writes reads back as the same datetime. *)
Lemma parse_datetime_isoformat (d : datetime) :
  valid_datetime d = true -> parse_datetime (isoformat d) = Some d.
Proof.
  intros Hv. pose proof Hv as Hv'.
  unfold valid_datetime, MINYEAR, MAXYEAR in Hv'.
  repeat (apply andb_prop in Hv' as [Hv' ?]).
  pose proof (days_in_month_le (year d) (month d)).
  unfold parse_datetime, isoformat.
  rewrite list_ascii_of_string_of_list_ascii.
  read_field. read_separator. read_field. read_separator. read_field.
  read_separator. read_field. read_separator. read_field. read_separator.
  read_field.
  destruct (Z.eqb_spec (microsecond d) 0) as [E|E].
  - destruct d; cbn in *. subst. now rewrite Hv.
  - read_separator.
    rewrite <- (app_nil_r (zero_pad 6 (microsecond d))).
    read_field.
    destruct d; cbn in *. now rewrite Hv.
Qed.

Lemma decode_str_list_map (l : list string) :
  decode_str_list (JArr (map JStr l)) = Some l.
Proof.
  cbn [decode_str_list]. induction l as [|x l IH]; [reflexivity|].
  cbn [map mapM]. cbn [decode_str]. rewrite IH. reflexivity.
Qed.

Lemma decode_priority_value (p : Priority) :
  decode_priority (JStr (Priority_value p)) = Some p.
Proof. now destruct p. Qed.

(** The JSON of a task with calendar datetimes supplies the eight fields
    as they are stored. *)
Lemma parse_obj_task_json now (t : TaskModel) :
  (forall d, deadline t = Some d -> valid_datetime d = true) ->
  valid_datetime (created_at t) = true ->
  parse_obj now (task_json t)
  = Some (model_validate now
            (mk_input (Some (title t)) (Some (priority t)) (Some (deadline t))
               (Some (dependencies t)) (Some (recurring t))
               (Some (recurrence_interval t)) (Some (completed t))
               (Some (created_at t)))).
Proof.
  intros Hdl Hca.
  destruct t as [ti pr dl deps rec ri co ca].
  unfold parse_obj, task_json, supplied.
  cbn [dict_items fold_left dict_set dict_get fst snd String.eqb Ascii.eqb Bool.eqb
       title priority deadline dependencies recurring
       recurrence_interval completed created_at] in *.
  cbn [decode_str decode_bool].
  rewrite decode_priority_value, decode_str_list_map.
  assert (Hd1 : decode_optional decode_datetime
                  (json_of_option (fun d => JStr (isoformat d)) dl) = Some dl).
  { destruct dl as [d|]; [|reflexivity].
    cbn [json_of_option decode_optional decode_datetime].
    now rewrite (parse_datetime_isoformat d (Hdl d eq_refl)). }
  assert (Hd2 : decode_optional decode_int (json_of_option JInt ri) = Some ri)
    by now destruct ri.
  assert (Hd3 : decode_datetime (JStr (isoformat ca)) = Some ca).
  { cbn [decode_datetime]. now rewrite (parse_datetime_isoformat ca Hca). }
  rewrite Hd1, Hd2, Hd3. reflexivity.
Qed.

(** Every record [task_json] writes carries [recurrence_interval]; read
    back, a well-formed task hands the validator [None] or an interval
    within the bounds, and validation raises. *)
Lemma parse_obj_task_json_raises now (t : TaskModel) :
  valid_task t -> parse_obj now (task_json t) = Some (Raise AttributeError).
Proof.
  intros (_ & Hdl & Hca & Hri).
  rewrite (parse_obj_task_json now t Hdl Hca). f_equal.
  apply (model_validate_interval_supplied now _ (recurrence_interval t)); [reflexivity|].
  intros n Hn. rewrite Hn in Hri. apply Hri.
Qed.

Lemma dict_set_fresh {A} (k : string) (v : A) (d : list (string * A)) :
  k ∉ map fst d -> dict_set k v d = d ++ [(k, v)].
Proof.
  induction d as [|[k' v'] d IH]; intros H; [reflexivity|].
  cbn [dict_set app]. cbn [map fst] in H.
  apply not_elem_of_cons in H as [Hne Hd].
  apply String.eqb_neq in Hne. rewrite Hne. now rewrite IH.
Qed.

Lemma dict_items_from {A} (members acc : list (string * A)) :
  NoDup (map fst (acc ++ members)) ->
  fold_left (fun d kv => dict_set (fst kv) (snd kv) d) members acc = acc ++ members.
Proof.
  revert acc. induction members as [|[k v] members IH]; intros acc H.
  - now rewrite app_nil_r.
  - cbn [fold_left fst snd].
    assert (Hk : k ∉ map fst acc).
    { rewrite map_app in H. apply NoDup_app in H as (_ & Hdisj & _).
      intros Hin. apply (Hdisj k Hin). cbn [map fst]. left. }
    rewrite (dict_set_fresh k v acc Hk).
    rewrite IH; rewrite <- app_assoc; [reflexivity | exact H].
Qed.

(** Members with distinct keys are the items of the dict they load as. *)
Lemma dict_items_distinct {A} (members : list (string * A)) :
  NoDup (map fst members) -> dict_items members = members.
Proof. intros H. unfold dict_items. now rewrite dict_items_from. Qed.

Lemma parse_items_first_raises now k (task_data : json) rest e :
  parse_obj now task_data = Some (Raise e) ->
  parse_items now ((k, task_data) :: rest) = Some (Raise e).
Proof. intros H. cbn [parse_items]. now rewrite H. Qed.

(** The items [load_tasks] parses after [save_tasks]. *)
Lemma saved_items (s : state) :
  disk (snd (save_tasks s)) !! filename s = Some (dump_tasks (tasks s))
  /\ dict_items (map (fun kt => (fst kt, task_json (snd kt))) (map_to_list (tasks s)))
     = map (fun kt => (fst kt, task_json (snd kt))) (map_to_list (tasks s)).
Proof.
  split.
  - unfold save_tasks. cbn [snd disk]. apply lookup_insert_eq.
  - apply dict_items_distinct. rewrite map_map. cbn [fst].
    apply (NoDup_fst_map_to_list (tasks s)).
Qed.

Lemma parse_saved_items_raise now (ts : gmap string TaskModel) :
  store_valid ts -> ts <> ∅ ->
  parse_items now (map (fun kt => (fst kt, task_json (snd kt))) (map_to_list ts))
  = Some (Raise AttributeError).
Proof.
  intros Hv Hne.
  destruct (map_to_list ts) as [|[k t] l] eqn:E.
  - apply map_to_list_empty_iff in E. contradiction.
  - cbn [map fst snd]. apply parse_items_first_raises, parse_obj_task_json_raises.
    apply (Hv k t). apply elem_of_map_to_list. rewrite E. left.
Qed.

(** C6 (the code departs from the claim). A saved store does not load.
    After [save_tasks] on any store of well-formed tasks that is not
    empty, [load_tasks] raises [AttributeError] from the validator of the
    first record, at every clock reading: the manager that saved keeps
    its mapping, and a new [TaskManager] on the file is left with the
    empty mapping. *)
Theorem saved_store_does_not_load now (s : state) :
  store_valid (tasks s) ->
  tasks s <> ∅ ->
  let saved := snd (save_tasks s) in
  disk saved !! filename s = Some (dump_tasks (tasks s))
  /\ load_tasks now saved = Some (Raise AttributeError, saved)
  /\ TaskManager_init now (filename s) (disk saved)
     = Some (Raise AttributeError, mk_state (filename s) ∅ (disk saved)).
Proof.
  intros Hv Hne saved.
  destruct (saved_items s) as [Hdisk Hitems]. fold saved in Hdisk.
  split; [exact Hdisk|].
  unfold TaskManager_init, load_tasks. cbn [filename disk].
  change (filename saved) with (filename s).
  rewrite Hdisk. unfold dump_tasks. rewrite Hitems.
  rewrite (parse_saved_items_raise now (tasks s) Hv Hne). split; reflexivity.
Qed.

Lemma saved_store_does_not_load_witness :
  let created := mk_datetime 2025 6 1 12 0 0 0 in
  let later := mk_datetime 2025 6 1 12 5 0 0 in
  let A := mk_TaskModel "A" MEDIUM None [] false None false created in
  let s0 := mk_state "tasks.json" ∅ ∅ in
  let s1 := snd (add_task A s0) in
  TaskModel_without_interval created "A" MEDIUM None [] false = Return A
  /\ add_task A s0 = (Return true, s1)
  /\ tasks s1 = {[ "A" := A ]}
  /\ TaskManager_init later "tasks.json" (disk s1)
     = Some (Raise AttributeError, mk_state "tasks.json" ∅ (disk s1)).
Proof.
  intros created later A s0 s1.
  assert (Hv : store_valid (tasks s1)).
  { intros k t Hk. change (tasks s1) with ({[ "A"%string := A ]} : gmap string TaskModel) in Hk.
    apply lookup_singleton_Some in Hk as [_ <-].
    split; [cbn; lia|]. split; [intros d H; discriminate H|]. split; reflexivity. }
  assert (Hne : tasks s1 <> ∅).
  { change (tasks s1) with ({[ "A"%string := A ]} : gmap string TaskModel).
    apply insert_non_empty. }
  split; [reflexivity|]. split; [reflexivity|]. split; [reflexivity|].
  exact (proj2 (proj2 (saved_store_does_not_load later s1 Hv Hne))).
Defined.

(** * Further properties of the task model and the store *)

(** ** Construction *)

Lemma TaskModel_without_interval_returns now t p dl deps r task :
  TaskModel_without_interval now t p dl deps r = Return task ->
  ((1 <= String.length t <= 100)%nat
   /\ (forall d, dl = Some d -> datetime_lt d now = false))
  /\ task = mk_TaskModel t p dl deps r None false now.
Proof.
  rewrite TaskModel_without_interval_eq.
  destruct (check_title t) eqn:Ht; [|discriminate].
  destruct (deadline_must_be_future now dl) eqn:Hd; [|discriminate].
  cbn [app]. intros [= <-]. split; [|reflexivity].
  split; [now apply check_title_ok | now apply deadline_ok].
Qed.

(** X1. What the constructor does. A call that passes the interval never
    returns a task: it raises [AttributeError] when the interval is
    [None] or within 1..365, and a [ValidationError] when it is outside.
    A call that leaves the interval out returns a task exactly when the
    title has 1 to 100 characters and the deadline, if any, is not before
    the clock reading; the task has the fields given and no interval, is
    not completed and is stamped with the clock reading; otherwise the
    call raises a [ValidationError]. *)
Theorem construction_outcomes now t p dl deps r :
  let rules :=
    (1 <= String.length t <= 100)%nat
    /\ (forall d, dl = Some d -> datetime_lt d now = false) in
  (forall ri,
     (forall i, ri = Some i -> 1 <= i <= 365) ->
     TaskModel_new now t p dl deps r ri = Raise AttributeError)
  /\ (forall i,
        i < 1 \/ 365 < i ->
        exists es, TaskModel_new now t p dl deps r (Some i) = Raise (ValidationError es))
  /\ (rules ->
      TaskModel_without_interval now t p dl deps r
      = Return (mk_TaskModel t p dl deps r None false now))
  /\ (forall task,
        TaskModel_without_interval now t p dl deps r = Return task ->
        rules /\ task = mk_TaskModel t p dl deps r None false now)
  /\ (forall e,
        TaskModel_without_interval now t p dl deps r = Raise e ->
        exists es, e = ValidationError es).
Proof.
  cbv zeta. split; [|split; [|split; [|split]]].
  - intros ri. apply TaskModel_new_within_bounds.
  - intros i Hi. rewrite TaskModel_new_eq.
    destruct (Z.ltb_spec i 1); [eexists; reflexivity|].
    destruct (Z.ltb_spec 365 i); [eexists; reflexivity | lia].
  - intros (Ht%check_title_ok & Hd%deadline_ok).
    now rewrite TaskModel_without_interval_eq, Ht, Hd.
  - intros task. apply TaskModel_without_interval_returns.
  - intros e. rewrite TaskModel_without_interval_eq.
    destruct (_ ++ _); intros [= <-]. eexists. reflexivity.
Qed.

Lemma construction_outcomes_witness :
  let now := mk_datetime 2025 6 1 12 0 0 0 in
  let due := mk_datetime 2025 6 1 12 0 0 0 in
  TaskModel_new now "Water plants" LOW (Some due) ["Buy can"] true (Some 7)
  = Raise AttributeError
  /\ (exists es, TaskModel_new now "Water plants" LOW (Some due) ["Buy can"] true (Some 400)
                 = Raise (ValidationError es))
  /\ TaskModel_without_interval now "Water plants" LOW (Some due) ["Buy can"] true
     = Return (mk_TaskModel "Water plants" LOW (Some due) ["Buy can"] true None false now).
Proof.
  intros now due.
  pose proof (construction_outcomes now "Water plants" LOW (Some due) ["Buy can"] true)
    as (H1 & H2 & H3 & _).
  split; [|split].
  - apply (H1 (Some 7)). intros i [= <-]. lia.
  - apply (H2 400). right. lia.
  - apply H3. split; [cbn; lia|]. intros d [= <-]. reflexivity.
Defined.

(** ** The calendar *)

Lemma days_in_month_ge (y m : Z) : 28 <= days_in_month y m.
Proof.
  unfold days_in_month.
  destruct (m =? 2); [destruct (is_leap y); lia|].
  destruct ((m =? 4) || (m =? 6) || (m =? 9) || (m =? 11)); lia.
Qed.

Lemma valid_datetime_spec (d : datetime) :
  valid_datetime d = true <->
  (1 <= year d <= 9999 /\ 1 <= month d <= 12
   /\ 1 <= day d <= days_in_month (year d) (month d)
   /\ 0 <= hour d < 24 /\ 0 <= minute d < 60 /\ 0 <= second d < 60
   /\ 0 <= microsecond d < 1000000).
Proof.
  unfold valid_datetime, MINYEAR, MAXYEAR.
  rewrite !andb_true_iff, !Z.leb_le, !Z.ltb_lt. tauto.
Qed.

Lemma lex_compare_trans (a b c : list Z) :
  lex_compare a b = Lt -> lex_compare b c <> Gt -> lex_compare a c = Lt.
Proof.
  revert b c. induction a as [|x a IH]; intros [|y b] [|z c]; cbn;
    try congruence.
  destruct (Z.compare_spec x y), (Z.compare_spec y z); try congruence; intros H1 H2.
  - subst. rewrite Z.compare_refl. now apply (IH b c).
  - subst. now apply Z.compare_lt_iff in H0 as ->.
  - subst. now apply Z.compare_lt_iff in H as ->.
  - assert (x < z) as ->%Z.compare_lt_iff by lia. reflexivity.
Qed.

Lemma datetime_lt_le_trans (a b c : datetime) :
  datetime_lt a b = true -> datetime_le b c = true -> datetime_lt a c = true.
Proof.
  unfold datetime_lt, datetime_le, datetime_compare. intros H1 H2.
  rewrite (lex_compare_trans (datetime_fields a) (datetime_fields b) (datetime_fields c)).
  - reflexivity.
  - now destruct (lex_compare (datetime_fields a) (datetime_fields b)).
  - now destruct (lex_compare (datetime_fields b) (datetime_fields c)).
Qed.

Lemma datetime_lt_trans (a b c : datetime) :
  datetime_lt a b = true -> datetime_lt b c = true -> datetime_lt a c = true.
Proof.
  intros H1 H2. apply (datetime_lt_le_trans a b c H1).
  unfold datetime_lt, datetime_le in *. now destruct (datetime_compare b c).
Qed.

Lemma next_day_later (d d' : datetime) :
  valid_datetime d = true -> next_day d = Some d' ->
  valid_datetime d' = true /\ datetime_lt d d' = true.
Proof.
  intros Hv%valid_datetime_spec. unfold next_day, MAXYEAR.
  pose proof (days_in_month_ge (year d) (month d + 1)).
  assert (Hjan : days_in_month (year d + 1) 1 = 31) by reflexivity.
  destruct (Z.ltb_spec (day d) (days_in_month (year d) (month d)));
    [|destruct (Z.ltb_spec (month d) 12); [|destruct (Z.ltb_spec (year d) 9999)]];
    intros [= <-]; split;
    try (apply valid_datetime_spec;
         cbn [year month day hour minute second microsecond]; lia);
    unfold datetime_lt, datetime_compare, datetime_fields;
    cbn [year month day hour minute second microsecond lex_compare].
  - rewrite !Z.compare_refl.
    now assert (day d < day d + 1) as ->%Z.compare_lt_iff by lia.
  - rewrite !Z.compare_refl.
    now assert (month d < month d + 1) as ->%Z.compare_lt_iff by lia.
  - now assert (year d < year d + 1) as ->%Z.compare_lt_iff by lia.
Qed.

Lemma step_next_day_later (n : positive) (d d' : datetime) :
  valid_datetime d = true -> step_days next_day n d = Some d' ->
  valid_datetime d' = true /\ datetime_lt d d' = true.
Proof.
  unfold step_days. revert d'. induction n as [|n IH] using Pos.peano_ind; intros d' Hv.
  - cbn. now apply next_day_later.
  - rewrite Pos.iter_succ.
    destruct (Pos.iter _ (Some d) n) as [d1|]; [|discriminate].
    intros Hn. destruct (IH d1 Hv eq_refl) as [Hv1 Hlt1].
    destruct (next_day_later d1 d' Hv1 Hn) as [Hv' Hlt'].
    split; [exact Hv' | exact (datetime_lt_trans _ _ _ Hlt1 Hlt')].
Qed.

Lemma new_deadline_cases (T : TaskModel) (D : datetime) (i : Z) :
  deadline T = Some D -> valid_datetime D = true ->
  recurrence_interval T = Some i -> 1 <= i ->
  new_deadline T = Raise OverflowError
  \/ exists D', new_deadline T = Return (Some D')
                /\ valid_datetime D' = true
                /\ datetime_lt D D' = true.
Proof.
  unfold new_deadline. intros -> Hv -> Hi. change (default 0 (Some i)) with i.
  unfold datetime_add_days. destruct i as [|n|n]; try lia.
  destruct (step_days next_day n D) as [D'|] eqn:E; [right | left; reflexivity].
  exists D'. split; [reflexivity|]. exact (step_next_day_later n D D' Hv E).
Qed.

(** X2. The deadline computed for a successor: absent when the task has
    none; otherwise, for a task with a calendar deadline and a positive
    interval, either the addition leaves the calendar and raises
    [OverflowError], or the new deadline is a calendar datetime strictly
    later than the old one. *)
Theorem new_deadline_is_later (T : TaskModel) :
  (deadline T = None -> new_deadline T = Return None)
  /\ (forall D i,
        deadline T = Some D -> valid_datetime D = true ->
        recurrence_interval T = Some i -> 1 <= i ->
        new_deadline T = Raise OverflowError
        \/ exists D', new_deadline T = Return (Some D')
                      /\ valid_datetime D' = true
                      /\ datetime_lt D D' = true).
Proof.
  split; [unfold new_deadline; now intros ->|].
  intros D i. apply new_deadline_cases.
Qed.

Lemma new_deadline_is_later_witness :
  let T := mk_TaskModel "R" HIGH (Some (mk_datetime 2024 2 28 9 30 0 0)) [] true
             (Some 2) false (mk_datetime 2024 1 1 0 0 0 0) in
  new_deadline T = Raise OverflowError
  \/ exists D', new_deadline T = Return (Some D')
                /\ valid_datetime D' = true
                /\ datetime_lt (mk_datetime 2024 2 28 9 30 0 0) D' = true.
Proof.
  intros T.
  apply (proj2 (new_deadline_is_later T) (mk_datetime 2024 2 28 9 30 0 0) 2);
    [reflexivity | reflexivity | reflexivity | lia].
Defined.

(** ** Well-formed stores *)

Lemma valid_task_set_completed (t : TaskModel) :
  valid_task t -> valid_task (set_completed t).
Proof. intros H. exact H. Qed.

Lemma add_task_tasks (task : TaskModel) (s : state) :
  tasks (snd (add_task task s)) = tasks s
  \/ tasks (snd (add_task task s)) = <[title task := task]> (tasks s).
Proof.
  rewrite add_task_eq. destruct (contains _ _); [now left|].
  destruct (existsb _ _); [now left | now right].
Qed.

Lemma keyed_by_title_insert (ts : gmap string TaskModel) (t : TaskModel) :
  keyed_by_title ts -> keyed_by_title (<[title t := t]> ts).
Proof.
  intros H k t'. destruct (decide (title t = k)) as [<-|Hne].
  - rewrite lookup_insert_eq. now intros [= <-].
  - rewrite lookup_insert_ne by exact Hne. apply H.
Qed.

Lemma store_valid_insert (ts : gmap string TaskModel) k (t : TaskModel) :
  store_valid ts -> valid_task t -> store_valid (<[k := t]> ts).
Proof.
  intros H Ht k' t'. destruct (decide (k = k')) as [<-|Hne].
  - rewrite lookup_insert_eq. now intros [= <-].
  - rewrite lookup_insert_ne by exact Hne. apply H.
Qed.

Lemma add_task_keyed (task : TaskModel) (s : state) :
  keyed_by_title (tasks s) -> keyed_by_title (tasks (snd (add_task task s))).
Proof.
  intros H. destruct (add_task_tasks task s) as [->| ->]; [exact H|].
  now apply keyed_by_title_insert.
Qed.

Lemma complete_task_keyed now key (s : state) :
  keyed_by_title (tasks s) -> keyed_by_title (tasks (snd (complete_task now key s))).
Proof.
  intros H. destruct (tasks s !! key) as [t|] eqn:Ht.
  - rewrite (complete_task_tasks now key s t Ht), <- (H key t Ht).
    apply (keyed_by_title_insert (tasks s) (set_completed t) H).
  - now rewrite complete_task_absent.
Qed.

(** X3. Every task is stored under its own title: this holds of the
    empty store and is kept by [add_task], by [complete_task], which
    stores the marked task under the key it had, and so by every sequence
    of store operations. *)
Theorem tasks_are_keyed_by_their_title :
  keyed_by_title ∅
  /\ (forall task s,
        keyed_by_title (tasks s) -> keyed_by_title (tasks (snd (add_task task s))))
  /\ (forall now key s,
        keyed_by_title (tasks s) ->
        keyed_by_title (tasks (snd (complete_task now key s))))
  /\ (forall ops s,
        keyed_by_title (tasks s) -> keyed_by_title (tasks (run_ops ops s))).
Proof.
  split; [|split; [|split]].
  - intros k t H. rewrite lookup_empty in H. discriminate.
  - apply add_task_keyed.
  - apply complete_task_keyed.
  - intros ops. induction ops as [|o ops IH]; intros s H; [exact H|].
    cbn [run_ops fold_left]. apply IH. destruct o as [task|now key|key]; cbn [run_op].
    + now apply add_task_keyed.
    + now apply complete_task_keyed.
    + now rewrite get_pending_dependencies_state.
Qed.

Lemma tasks_are_keyed_by_their_title_witness :
  let now := mk_datetime 2025 6 1 12 0 0 0 in
  let A := mk_TaskModel "A" MEDIUM None [] true None false now in
  keyed_by_title
    (tasks (run_ops [Add A; Complete now "A"] (mk_state "tasks.json" ∅ ∅))).
Proof.
  intros now A.
  apply (proj2 (proj2 (proj2 tasks_are_keyed_by_their_title))).
  exact (proj1 tasks_are_keyed_by_their_title).
Defined.

Lemma add_task_store_valid (task : TaskModel) (s : state) :
  valid_task task -> store_valid (tasks s) ->
  store_valid (tasks (snd (add_task task s))).
Proof.
  intros Ht H. destruct (add_task_tasks task s) as [->| ->]; [exact H|].
  now apply store_valid_insert.
Qed.

Lemma complete_task_store_valid now key (s : state) :
  valid_datetime now = true -> store_valid (tasks s) ->
  store_valid (tasks (snd (complete_task now key s))).
Proof.
  intros _ H. destruct (tasks s !! key) as [t|] eqn:Ht.
  - rewrite (complete_task_tasks now key s t Ht).
    apply store_valid_insert; [exact H|].
    apply valid_task_set_completed. exact (H key t Ht).
  - now rewrite complete_task_absent.
Qed.

(** X4. A store of well-formed tasks stays one: adding a well-formed
    task, and completing a task at a clock reading of the calendar, leave
    every stored task well formed, on the run of [complete_task] that
    raises too. *)
Theorem stored_tasks_stay_valid :
  store_valid ∅
  /\ (forall task s,
        valid_task task -> store_valid (tasks s) ->
        store_valid (tasks (snd (add_task task s))))
  /\ (forall now key s,
        valid_datetime now = true -> store_valid (tasks s) ->
        store_valid (tasks (snd (complete_task now key s))))
  /\ (forall ops s,
        Forall op_valid ops -> store_valid (tasks s) ->
        store_valid (tasks (run_ops ops s))).
Proof.
  split; [|split; [|split]].
  - intros k t H. rewrite lookup_empty in H. discriminate.
  - apply add_task_store_valid.
  - apply complete_task_store_valid.
  - intros ops. induction ops as [|o ops IH]; intros s Hops H; [exact H|].
    apply Forall_cons in Hops as [Ho Hops].
    cbn [run_ops fold_left]. apply IH; [exact Hops|].
    destruct o as [task|now key|key]; cbn [run_op op_valid] in *.
    + now apply add_task_store_valid.
    + now apply complete_task_store_valid.
    + now rewrite get_pending_dependencies_state.
Qed.

Lemma stored_tasks_stay_valid_witness :
  let now := mk_datetime 2025 6 1 12 0 0 0 in
  let A := mk_TaskModel "A" MEDIUM (Some (mk_datetime 2025 6 2 0 0 0 0)) [] false
             None false now in
  store_valid
    (tasks (run_ops [Add A; Complete now "A"] (mk_state "tasks.json" ∅ ∅))).
Proof.
  intros now A.
  assert (HA : valid_task A).
  { split; [cbn; lia|]. split; [intros d [= <-]; reflexivity|].
    split; reflexivity. }
  apply (proj2 (proj2 (proj2 stored_tasks_stay_valid))).
  - constructor; [exact HA|]. constructor; [reflexivity|]. constructor.
  - exact (proj1 stored_tasks_stay_valid).
Defined.

(** ** What the operations never do *)

Lemma run_op_keeps_or_marks (o : op) (s : state) k t :
  tasks s !! k = Some t ->
  tasks (run_op o s) !! k = Some t \/ tasks (run_op o s) !! k = Some (set_completed t).
Proof.
  intros H. destruct o as [task|now key|key]; cbn [run_op].
  - left. now apply add_task_keeps.
  - rewrite (complete_task_lookup now key s k t H).
    destruct (decide (k = key)); [now right | now left].
  - left. now rewrite get_pending_dependencies_state.
Qed.

Lemma run_ops_keeps_or_marks (ops : list op) (s : state) k t :
  tasks s !! k = Some t ->
  tasks (run_ops ops s) !! k = Some t
  \/ tasks (run_ops ops s) !! k = Some (set_completed t).
Proof.
  revert s t. induction ops as [|o ops IH]; intros s t H; [now left|].
  cbn [run_ops fold_left].
  destruct (run_op_keeps_or_marks o s k t H) as [H1|H1].
  - exact (IH _ t H1).
  - destruct (IH _ (set_completed t) H1) as [H2|H2]; right; exact H2.
Qed.

(** X5. No stored task is ever removed or edited: after any sequence of
    [add_task], [complete_task] and [get_pending_dependencies], a task
    that was stored is still stored under the same key, equal to what it
    was except possibly for [completed] having been set. *)
Theorem stored_tasks_are_never_removed_or_edited (ops : list op) (s : state) k t :
  tasks s !! k = Some t ->
  (exists t', tasks (run_ops ops s) !! k = Some t'
              /\ title t' = title t /\ priority t' = priority t
              /\ deadline t' = deadline t /\ dependencies t' = dependencies t
              /\ recurring t' = recurring t
              /\ recurrence_interval t' = recurrence_interval t
              /\ created_at t' = created_at t
              /\ (completed t = true -> completed t' = true)).
Proof.
  intros H. destruct (run_ops_keeps_or_marks ops s k t H) as [H1|H1];
    eexists; (split; [exact H1|]); repeat split; auto.
Qed.

Lemma stored_tasks_are_never_removed_or_edited_witness :
  let now := mk_datetime 2025 6 1 12 0 0 0 in
  let A := mk_TaskModel "A" MEDIUM None [] true None false now in
  let B := mk_TaskModel "A" HIGH None [] false None false now in
  let s := mk_state "tasks.json" {[ "A" := A ]} ∅ in
  let s' := run_ops [Add B; Complete now "A"; Complete now "C"; Add B] s in
  exists t', tasks s' !! "A" = Some t' /\ priority t' = MEDIUM /\ recurring t' = true.
Proof.
  intros now A B s s'.
  assert (H : tasks s !! "A"%string = Some A) by reflexivity.
  destruct (stored_tasks_are_never_removed_or_edited
              [Add B; Complete now "A"; Complete now "C"; Add B] s "A" A H)
    as (t' & Ht' & _ & Hp & _ & _ & Hr & _).
  exists t'. split; [exact Ht'|]. split; [exact Hp | exact Hr].
Defined.

Lemma written_again (s : state) (ts : gmap string TaskModel) :
  written (written s ts) ts = written s ts.
Proof. unfold written. cbn [filename tasks disk]. now rewrite insert_insert_eq. Qed.

Lemma complete_task_again now1 now2 key (s : state) :
  fst (complete_task now1 key s) = Return true ->
  complete_task now2 key (snd (complete_task now1 key s))
  = (Return true, snd (complete_task now1 key s)).
Proof.
  destruct (tasks s !! key) as [t|] eqn:Ht;
    [|rewrite (complete_task_absent now1 key s Ht); discriminate].
  rewrite (complete_task_stored now1 key s t Ht).
  set (ts1 := <[key := set_completed t]> (tasks s)).
  assert (Hk : tasks (written s ts1) !! key = Some (set_completed t))
    by apply lookup_insert_eq.
  assert (Hid : <[key := set_completed (set_completed t)]> (tasks (written s ts1)) = ts1).
  { cbn [tasks written]. unfold ts1. apply insert_insert_eq. }
  pose proof (complete_task_stored now2 key (written s ts1) (set_completed t) Hk) as H2.
  cbv zeta in H2. rewrite Hid, written_again in H2.
  change (recurring (set_completed t)) with (recurring t) in H2.
  change (recurrence_interval (set_completed t)) with (recurrence_interval t) in H2.
  change (new_deadline (set_completed t)) with (new_deadline t) in H2.
  destruct (recurring t && truthy (recurrence_interval t)); [|intros _; exact H2].
  destruct (new_deadline t) as [nd|e]; [|discriminate].
  destruct (recurrence_interval t) as [i|]; [|discriminate].
  destruct ((i <? 1) || (365 <? i)); [intros _; exact H2 | discriminate].
Qed.

(** X6. Completing a title again changes nothing: when [complete_task]
    has returned true, a second call for the same title, at any clock
    reading, returns true and leaves the mapping and the file exactly as
    the first call left them. *)
Theorem completing_again_changes_nothing now1 now2 key (s : state) :
  fst (complete_task now1 key s) = Return true ->
  complete_task now2 key (snd (complete_task now1 key s))
  = (Return true, snd (complete_task now1 key s)).
Proof. apply complete_task_again. Qed.

Lemma completing_again_changes_nothing_witness :
  let created := mk_datetime 2025 6 1 12 0 0 0 in
  let now1 := mk_datetime 2025 6 2 8 0 0 0 in
  let now2 := mk_datetime 2025 6 2 9 0 0 0 in
  let R := mk_TaskModel "R" HIGH (Some (mk_datetime 2025 6 3 0 0 0 0)) [] true
             None false created in
  let s := written (mk_state "tasks.json" ∅ ∅) {[ "R" := R ]} in
  let s1 := snd (complete_task now1 "R" s) in
  tasks s1 = {[ "R" := set_completed R ]}
  /\ complete_task now2 "R" s1 = (Return true, s1).
Proof.
  intros created now1 now2 R s s1. split; [reflexivity|].
  assert (H1 : fst (complete_task now1 "R" s) = Return true) by reflexivity.
  exact (completing_again_changes_nothing now1 now2 "R" s H1).
Defined.

(** ** Persistence *)

Lemma synced_written (s : state) (ts : gmap string TaskModel) : synced (written s ts).
Proof. unfold synced, written. cbn [filename tasks disk]. apply lookup_insert_eq. Qed.

Lemma add_task_result (task : TaskModel) (s : state) :
  add_task task s = (Return false, s)
  \/ exists ts, add_task task s = (Return true, written s ts).
Proof.
  rewrite add_task_eq. destruct (contains _ _); [now left|].
  destruct (existsb _ _); [now left | right; eexists; reflexivity].
Qed.

Lemma complete_task_result now key (s : state) :
  complete_task now key s = (Return false, s)
  \/ (exists ts, complete_task now key s = (Return true, written s ts))
  \/ (exists e, fst (complete_task now key s) = Raise e).
Proof.
  rewrite complete_task_eq. destruct (tasks s !! key) as [t|]; [|now left]. right.
  cbv zeta. destruct (recurring _ && truthy _); [|left; eexists; reflexivity].
  destruct (new_deadline _) as [nd|e]; [|right; eexists; reflexivity].
  destruct (TaskModel_new _ _ _ _ _ _ _) as [nt|e]; [left; eexists; reflexivity|].
  destruct (is_ValueError e); [left | right]; eexists; reflexivity.
Qed.

(** X7. The file follows the mapping: whenever [add_task] or
    [complete_task] returns true, the file of the store holds the dump of
    the mapping they leave in memory; whenever they return false, the
    mapping and the files are untouched; [get_pending_dependencies]
    touches neither. So a store whose file agrees with its mapping stays
    so through every call that returns. *)
Theorem the_file_follows_the_mapping (s : state) :
  (forall task,
     (fst (add_task task s) = Return true -> synced (snd (add_task task s)))
     /\ (fst (add_task task s) = Return false -> snd (add_task task s) = s))
  /\ (forall now key,
        (fst (complete_task now key s) = Return true ->
         synced (snd (complete_task now key s)))
        /\ (fst (complete_task now key s) = Return false ->
            snd (complete_task now key s) = s))
  /\ (forall key, snd (get_pending_dependencies key s) = s)
  /\ (synced s ->
      (forall task, synced (snd (add_task task s)))
      /\ (forall now key,
            ~ fails (fst (complete_task now key s)) ->
            synced (snd (complete_task now key s)))).
Proof.
  assert (Hadd : forall task,
            (fst (add_task task s) = Return true -> synced (snd (add_task task s)))
            /\ (fst (add_task task s) = Return false -> snd (add_task task s) = s)).
  { intros task. destruct (add_task_result task s) as [->|[ts ->]]; cbn [fst snd].
    - split; [discriminate | reflexivity].
    - split; [intros _; apply synced_written | discriminate]. }
  assert (Hcomp : forall now key,
            (fst (complete_task now key s) = Return true ->
             synced (snd (complete_task now key s)))
            /\ (fst (complete_task now key s) = Return false ->
                snd (complete_task now key s) = s)).
  { intros now key.
    destruct (complete_task_result now key s) as [->|[[ts ->]|[e He]]]; cbn [fst snd].
    - split; [discriminate | reflexivity].
    - split; [intros _; apply synced_written | discriminate].
    - rewrite He. split; discriminate. }
  split; [exact Hadd|]. split; [exact Hcomp|].
  split; [intros key; apply get_pending_dependencies_state|].
  intros Hs. split.
  - intros task. destruct (add_task_result task s) as [->|[ts ->]]; cbn [snd];
      [exact Hs | apply synced_written].
  - intros now key Hret.
    destruct (complete_task_result now key s) as [->|[[ts ->]|[e He]]]; cbn [snd];
      [exact Hs | apply synced_written|].
    exfalso. apply Hret. now exists e.
Qed.

Lemma the_file_follows_the_mapping_witness :
  let now := mk_datetime 2025 6 1 12 0 0 0 in
  let A := mk_TaskModel "A" MEDIUM None [] false None false now in
  let s := mk_state "tasks.json" ∅ ∅ in
  synced (snd (add_task A s))
  /\ snd (complete_task now "B" s) = s.
Proof.
  intros now A s. split.
  - apply (proj1 (proj1 (the_file_follows_the_mapping s) A)). reflexivity.
  - apply (proj2 (proj1 (proj2 (the_file_follows_the_mapping s)) now "B")). reflexivity.
Defined.

(** ** Loading *)

Lemma model_validate_returns now (i : model_input) (t : TaskModel) :
  model_validate now i = Return t ->
  (1 <= String.length (title t) <= 100)%nat
  /\ (forall d, deadline t = Some d -> datetime_lt d now = false)
  /\ recurrence_interval t = None
  /\ in_recurrence_interval i = None.
Proof.
  unfold model_validate.
  destruct (in_recurrence_interval i) as [v|].
  - rewrite check_recurrence_interval_eq.
    destruct v as [n|]; [|discriminate].
    destruct (n <? 1); [|destruct (365 <? n); [|discriminate]];
      cbn [mbind outcome_bind mret outcome_ret];
      destruct (required "title" _ _), (required "priority" _ _), (optional None _ _),
        (optional [] _ _), (optional false _ (in_recurring i));
      discriminate.
  - cbn [mbind outcome_bind mret outcome_ret].
    destruct (required "title" check_title (in_title i)) as [?|ti] eqn:Et;
      [destruct (required "priority" _ _), (optional None _ _), (optional [] _ _),
         (optional false _ (in_recurring i)), (optional false _ _), (optional now _ _);
       discriminate|].
    destruct (required "priority" no_check (in_priority i)) as [?|pr];
      [destruct (optional None _ _), (optional [] _ _),
         (optional false _ (in_recurring i)), (optional false _ _), (optional now _ _);
       discriminate|].
    destruct (optional None (deadline_must_be_future now) (in_deadline i)) as [?|dl] eqn:Ed;
      [destruct (optional [] _ _), (optional false _ (in_recurring i)),
         (optional false _ _), (optional now _ _); discriminate|].
    destruct (optional [] no_check (in_dependencies i)) as [?|deps];
      [destruct (optional false _ (in_recurring i)), (optional false _ _),
         (optional now _ _); discriminate|].
    destruct (optional false no_check (in_recurring i)) as [?|rec];
      [destruct (optional false _ _), (optional now _ _); discriminate|].
    destruct (optional false no_check (in_completed i)) as [?|co];
      [destruct (optional now _ _); discriminate|].
    destruct (optional now no_check (in_created_at i)) as [?|ca]; [discriminate|].
    intros [= <-]. cbn [title deadline recurrence_interval].
    split; [|split; [|split; reflexivity]].
    + unfold required, checked in Et. destruct (in_title i) as [v|]; [|discriminate].
      destruct (check_title v) eqn:Ec; [|discriminate].
      injection Et as <-. now apply check_title_ok.
    + unfold optional, checked in Ed. destruct (in_deadline i) as [v|].
      * destruct (deadline_must_be_future now v) eqn:Ec; [|discriminate].
        injection Ed as <-. now apply deadline_ok.
      * injection Ed as <-. intros d H. discriminate H.
Qed.

Lemma parse_obj_returns now (task_data : json) (t : TaskModel) :
  parse_obj now task_data = Some (Return t) ->
  (1 <= String.length (title t) <= 100)%nat
  /\ (forall d, deadline t = Some d -> datetime_lt d now = false)
  /\ recurrence_interval t = None.
Proof.
  unfold parse_obj. destruct task_data as [| | | | |members]; try discriminate.
  cbv zeta.
  destruct (supplied decode_str _ _); [|discriminate].
  destruct (supplied decode_priority _ _); [|discriminate].
  destruct (supplied (decode_optional decode_datetime) _ _); [|discriminate].
  destruct (supplied decode_str_list _ _); [|discriminate].
  destruct (supplied decode_bool "recurring" _); [|discriminate].
  destruct (supplied (decode_optional decode_int) _ _); [|discriminate].
  destruct (supplied decode_bool "completed" _); [|discriminate].
  destruct (supplied decode_datetime _ _); [|discriminate].
  cbn [mbind option_bind]. intros [= H].
  destruct (model_validate_returns now _ t H) as (H1 & H2 & H3 & _). auto.
Qed.

Lemma parse_items_returns now (items : list (string * json)) ts k t :
  parse_items now items = Some (Return ts) -> (k, t) ∈ ts ->
  exists task_data, (k, task_data) ∈ items /\ parse_obj now task_data = Some (Return t).
Proof.
  revert ts. induction items as [|[k' j'] items IH]; cbn [parse_items]; intros ts.
  - intros [= <-] Hin. inversion Hin.
  - destruct (parse_obj now j') as [[t'|]|] eqn:E; try discriminate.
    destruct (parse_items now items) as [[ts'|]|]; try discriminate.
    intros [= <-] Hin. apply elem_of_cons in Hin as [[= -> ->]|Hin].
    + exists j'. split; [left | exact E].
    + destruct (IH ts' eq_refl Hin) as (j & Hj & Hp). exists j. split; [now right | exact Hp].
Qed.

(** X8. Restarting on a saved store. After [save_tasks] on a store of
    well-formed tasks, [TaskManager(filename)] returns exactly when the
    store saved was empty, and then with the empty mapping; on a file
    that does not exist it returns with the empty mapping too. *)
Theorem restart_returns_only_on_an_empty_store now (s : state) :
  store_valid (tasks s) ->
  let saved := snd (save_tasks s) in
  (fst <$> TaskManager_init now (filename s) (disk saved) = Some (Return tt)
   <-> tasks s = ∅)
  /\ (tasks s = ∅ ->
      TaskManager_init now (filename s) (disk saved)
      = Some (Return tt, mk_state (filename s) ∅ (disk saved)))
  /\ (forall file files,
        files !! file = None ->
        TaskManager_init now file files = Some (Return tt, mk_state file ∅ files)).
Proof.
  intros Hv saved.
  destruct (saved_items s) as [Hdisk Hitems]. fold saved in Hdisk.
  assert (Hempty : tasks s = ∅ ->
            TaskManager_init now (filename s) (disk saved)
            = Some (Return tt, mk_state (filename s) ∅ (disk saved))).
  { intros He. unfold TaskManager_init, load_tasks. cbn [filename disk].
    rewrite Hdisk, He. unfold dump_tasks. rewrite map_to_list_empty. reflexivity. }
  split; [|split; [exact Hempty|]].
  - split; [|intros He; now rewrite (Hempty He)].
    intros H. destruct (decide (tasks s = ∅)) as [He|Hne]; [exact He|].
    unfold TaskManager_init, load_tasks in H. cbn [filename disk] in H.
    rewrite Hdisk in H. unfold dump_tasks in H. rewrite Hitems in H.
    rewrite (parse_saved_items_raise now (tasks s) Hv Hne) in H. discriminate H.
  - intros file files Hf. unfold TaskManager_init, load_tasks. cbn [filename disk].
    now rewrite Hf.
Qed.

Lemma restart_returns_only_on_an_empty_store_witness :
  let now := mk_datetime 2025 6 1 12 0 0 0 in
  let s := mk_state "tasks.json" ∅ ∅ in
  TaskManager_init now "tasks.json" (disk (snd (save_tasks s)))
  = Some (Return tt, mk_state "tasks.json" ∅ (disk (snd (save_tasks s)))).
Proof.
  intros now s.
  assert (Hv : store_valid (tasks s)).
  { intros k t Hk. cbn [tasks s] in Hk. rewrite lookup_empty in Hk. discriminate Hk. }
  exact (proj1 (proj2 (restart_returns_only_on_an_empty_store now s Hv)) eq_refl).
Defined.



(** ** Pending dependencies, further *)

Lemma pending_of_first_missing (ts : gmap string TaskModel) (present rest : list string) d :
  (forall dep, dep ∈ present -> is_Some (ts !! dep)) ->
  ts !! d = None ->
  pending_of ts (present ++ d :: rest) = Raise (KeyError d).
Proof.
  intros Hp Hd. induction present as [|x present IH]; cbn [app pending_of].
  - now rewrite Hd.
  - destruct (Hp x) as [t ->]; [left|].
    rewrite IH by (intros dep Hin; apply Hp; now right). reflexivity.
Qed.

(** X9. [get_pending_dependencies] on a stored title with a listed
    dependency that is not stored raises [KeyError] for the first such
    dependency in the order listed, and leaves the state as it is. *)
Theorem pending_dependencies_raise_on_first_missing (s : state) key task
    (present rest : list string) d :
  tasks s !! key = Some task ->
  dependencies task = present ++ d :: rest ->
  (forall dep, dep ∈ present -> is_Some (tasks s !! dep)) ->
  tasks s !! d = None ->
  get_pending_dependencies key s = (Raise (KeyError d), s).
Proof.
  intros Hk Hdeps Hp Hd.
  unfold get_pending_dependencies, mbind, M_bind, get_tasks, mret, M_ret, lift.
  rewrite Hk, Hdeps. now rewrite pending_of_first_missing.
Qed.

Lemma pending_dependencies_raise_on_first_missing_witness :
  let now := mk_datetime 2025 6 1 12 0 0 0 in
  let A := mk_TaskModel "A" MEDIUM None [] false None false now in
  let B := mk_TaskModel "B" HIGH None ["A"; "X"; "Y"] false None false now in
  let s := mk_state "tasks.json" (<["B" := B]> {[ "A" := A ]}) ∅ in
  get_pending_dependencies "B" s = (Raise (KeyError "X"), s).
Proof.
  intros now A B s.
  assert (HB : tasks s !! "B"%string = Some B) by reflexivity.
  assert (Hp : forall dep, dep ∈ ["A"%string] -> is_Some (tasks s !! dep)).
  { intros dep H. apply list_elem_of_singleton in H. subst dep. exists A. reflexivity. }
  assert (HX : tasks s !! "X"%string = None) by reflexivity.
  exact (pending_dependencies_raise_on_first_missing s "B" B ["A"%string] ["Y"%string]
           "X" HB eq_refl Hp HX).
Defined.

Lemma pending_of_returns (ts : gmap string TaskModel) (deps l : list string) :
  pending_of ts deps = Return l -> l = List.filter (is_pending ts) deps.
Proof.
  revert l. induction deps as [|dep deps IH]; cbn [pending_of List.filter]; intros l.
  - now intros [= <-].
  - unfold is_pending at 1. destruct (ts !! dep) as [t|]; [|discriminate].
    destruct (pending_of ts deps) as [l'|]; [|discriminate].
    intros [= <-]. rewrite (IH l' eq_refl). now destruct (completed t).
Qed.

Lemma filter_weaker_sublist {A} (P Q : A -> bool) (l : list A) :
  (forall x, x ∈ l -> P x = true -> Q x = true) ->
  sublist (List.filter P l) (List.filter Q l).
Proof.
  induction l as [|x l IH]; intros H; [constructor|].
  cbn [List.filter].
  assert (IH' : sublist (List.filter P l) (List.filter Q l))
    by (apply IH; intros y Hy; apply H; now right).
  destruct (P x) eqn:EP.
  - rewrite (H x (list_elem_of_here x l) EP). now constructor.
  - destruct (Q x); [now constructor | exact IH'].
Qed.

Lemma run_ops_deps_closed (ops : list op) (s : state) :
  deps_closed (tasks s) -> deps_closed (tasks (run_ops ops s)).
Proof.
  revert s. induction ops as [|o ops IH]; intros s H; [exact H|].
  cbn [run_ops fold_left]. apply IH. now apply run_op_deps_closed.
Qed.

Lemma is_pending_earlier (ops : list op) (s : state) dep :
  is_Some (tasks s !! dep) ->
  is_pending (tasks (run_ops ops s)) dep = true -> is_pending (tasks s) dep = true.
Proof.
  intros [t Ht]. unfold is_pending. rewrite Ht.
  destruct (run_ops_keeps_or_marks ops s dep t Ht) as [-> | ->]; [auto|].
  cbn. discriminate.
Qed.

(** X10. The pending dependencies of a task only shrink: in a store where
    every listed dependency is stored, the list [get_pending_dependencies]
    returns for a stored title after any sequence of store operations is
    a subsequence of the list it returned before them. *)
Theorem pending_dependencies_only_shrink (ops : list op) (s : state) key task :
  deps_closed (tasks s) ->
  tasks s !! key = Some task ->
  exists before after,
    get_pending_dependencies key s = (Return before, s)
    /\ get_pending_dependencies key (run_ops ops s) = (Return after, run_ops ops s)
    /\ sublist after before.
Proof.
  intros Hc Hk.
  pose proof (run_ops_deps_closed ops s Hc) as Hc'.
  assert (Hk' : exists task', tasks (run_ops ops s) !! key = Some task'
                              /\ dependencies task' = dependencies task).
  { destruct (run_ops_keeps_or_marks ops s key task Hk) as [H|H];
      eexists; (split; [exact H | reflexivity]). }
  destruct Hk' as (task' & Hk' & Hdeps).
  exists (List.filter (is_pending (tasks s)) (dependencies task)),
         (List.filter (is_pending (tasks (run_ops ops s))) (dependencies task)).
  unfold get_pending_dependencies, mbind, M_bind, get_tasks, mret, M_ret, lift.
  rewrite Hk, Hk', Hdeps.
  rewrite !pending_of_present.
  - split; [reflexivity|]. split; [reflexivity|].
    apply filter_weaker_sublist. intros dep Hin.
    apply is_pending_earlier. exact (Hc key task dep Hk Hin).
  - intros dep Hin. rewrite <- Hdeps in Hin. exact (Hc' key task' dep Hk' Hin).
  - intros dep Hin. exact (Hc key task dep Hk Hin).
Qed.

Lemma pending_dependencies_only_shrink_witness :
  let now := mk_datetime 2025 6 1 12 0 0 0 in
  let A := mk_TaskModel "A" MEDIUM None [] false None false now in
  let B := mk_TaskModel "B" HIGH None ["A"] false None false now in
  let s := mk_state "tasks.json" (<["B" := B]> {[ "A" := A ]}) ∅ in
  exists before after,
    get_pending_dependencies "B" s = (Return before, s)
    /\ get_pending_dependencies "B" (run_ops [Complete now "A"] s)
       = (Return after, run_ops [Complete now "A"] s)
    /\ sublist after before.
Proof.
  intros now A B s.
  assert (Hc : deps_closed (tasks s)).
  { intros k t dep Hk Hin. cbn [tasks s] in *.
    apply lookup_insert_Some in Hk as [[_ <-]|[_ Hk]].
    - apply list_elem_of_singleton in Hin. subst dep. exists A. reflexivity.
    - apply lookup_singleton_Some in Hk as [_ <-]. inversion Hin. }
  assert (HB : tasks s !! "B"%string = Some B) by reflexivity.
  exact (pending_dependencies_only_shrink [Complete now "A"] s "B" B Hc HB).
Defined.

(** X11. A completed dependency is pending for no task: once
    [complete_task] has returned true for a title, that title is in no
    list that [get_pending_dependencies] returns, for any task. *)
Theorem completed_dependency_is_not_pending now (s : state) dep key l :
  fst (complete_task now dep s) = Return true ->
  fst (get_pending_dependencies key (snd (complete_task now dep s))) = Return l ->
  dep ∉ l.
Proof.
  intros Hret Hl.
  destruct (tasks s !! dep) as [t|] eqn:Ht;
    [|rewrite (complete_task_absent now dep s Ht) in Hret; discriminate].
  pose proof (complete_task_lookup now dep s dep t Ht) as Hdep.
  rewrite decide_True in Hdep by reflexivity.
  unfold get_pending_dependencies, mbind, M_bind, get_tasks, mret, M_ret, lift in Hl.
  destruct (tasks (snd (complete_task now dep s)) !! key) as [task|];
    cbn [fst] in Hl; [|injection Hl as <-; apply not_elem_of_nil].
  apply pending_of_returns in Hl. subst l.
  rewrite list_elem_of_In, filter_In. intros [_ Hp].
  unfold is_pending in Hp. rewrite Hdep in Hp. discriminate.
Qed.

Lemma completed_dependency_is_not_pending_witness :
  let now := mk_datetime 2025 6 1 12 0 0 0 in
  let A := mk_TaskModel "A" MEDIUM None [] false None false now in
  let B := mk_TaskModel "B" HIGH None ["A"] false None false now in
  let s := mk_state "tasks.json" (<["B" := B]> {[ "A" := A ]}) ∅ in
  let s' := snd (complete_task now "A" s) in
  fst (complete_task now "A" s) = Return true
  /\ fst (get_pending_dependencies "B" s') = Return []
  /\ "A"%string ∉ ([] : list string).
Proof.
  intros now A B s s'.
  assert (H1 : fst (complete_task now "A" s) = Return true) by reflexivity.
  assert (H2 : fst (get_pending_dependencies "B" s') = Return []) by reflexivity.
  split; [exact H1|]. split; [exact H2|].
  exact (completed_dependency_is_not_pending now s "A" "B" [] H1 H2).
Defined.

(** ** The commands *)

Lemma validate_dependencies_eq (deps : list string) (s : state) :
  CLI.validate_dependencies deps s
  = (Return (forallb (fun dep => contains dep (tasks s)) deps), s).
Proof. reflexivity. Qed.

Lemma missing_dep_forallb (ts : gmap string TaskModel) (deps : list string) :
  existsb (fun dep => negb (contains dep ts)) deps
  = negb (forallb (fun dep => contains dep ts) deps).
Proof.
  induction deps as [|dep deps IH]; [reflexivity|].
  cbn [existsb forallb]. rewrite IH. now destruct (contains dep ts), (forallb _ deps).
Qed.

(** X12. [validate_dependencies] returns true exactly when every title
    of the list is stored, and changes nothing. After it has returned
    true for the dependencies of a task, [add_task] of that task returns
    false only for a title that is already stored. *)
Theorem add_task_after_validation_fails_only_on_duplicates (s : state) :
  (forall deps,
     exists ok,
       CLI.validate_dependencies deps s = (Return ok, s)
       /\ (ok = true <-> forall dep, dep ∈ deps -> is_Some (tasks s !! dep)))
  /\ (forall task,
        fst (CLI.validate_dependencies (dependencies task) s) = Return true ->
        (fst (add_task task s) = Return false <-> is_Some (tasks s !! title task))).
Proof.
  split.
  - intros deps. eexists. split; [apply validate_dependencies_eq|].
    rewrite <- missing_dep_false, missing_dep_forallb, negb_false_iff. reflexivity.
  - intros task. rewrite validate_dependencies_eq, add_task_eq, missing_dep_forallb.
    cbn [fst]. intros [= ->]. cbn [negb].
    rewrite <- contains_true. destruct (contains _ _); cbn [fst]; split; congruence.
Qed.

Lemma add_task_after_validation_fails_only_on_duplicates_witness :
  let now := mk_datetime 2025 6 1 12 0 0 0 in
  let A := mk_TaskModel "A" MEDIUM None [] false None false now in
  let B := mk_TaskModel "A" HIGH None ["A"] false None false now in
  let s := mk_state "tasks.json" {[ "A" := A ]} ∅ in
  fst (add_task B s) = Return false.
Proof.
  intros now A B s.
  apply (proj2 (add_task_after_validation_fails_only_on_duplicates s) B); [reflexivity|].
  exists A. reflexivity.
Defined.

(** The command [add], by cases: past the two checks it makes itself,
    the constructor raises, and only a [ValidationError] is printed. *)
Lemma add_eq fromisoformat now ttl p deadline deps rec interval (s : state) :
  CLI.add fromisoformat now ttl p deadline deps rec interval s =
  match CLI.parse_deadline fromisoformat deadline with
  | None =>
      (Return [CLI.validation_error (CLI.of_fromisoformat (default EmptyString deadline))],
       s)
  | Some dl =>
      if forallb (fun dep => contains dep (tasks s)) (CLI.parse_deps deps) then
        match TaskModel_new now ttl p dl (CLI.parse_deps deps) rec
                (if rec then interval else None) with
        | Return task => (Raise AttributeError, s)
        | Raise e =>
            if is_ValueError e then (Return [CLI.validation_error (CLI.of_exn e)], s)
            else (Raise e, s)
        end
      else (Return [CLI.dependencies_do_not_exist], s)
  end.
Proof.
  unfold CLI.add.
  destruct (CLI.parse_deadline fromisoformat deadline) as [dl|]; [|reflexivity].
  unfold mbind at 1. unfold M_bind at 1. rewrite validate_dependencies_eq.
  destruct (forallb _ _) eqn:Ef; [|reflexivity]. cbn [negb].
  unfold try_except_ValueError, mbind, M_bind, lift, mret, M_ret.
  destruct (TaskModel_new _ _ _ _ _ _ _) as [task|e] eqn:E.
  - now apply TaskModel_new_never_returns in E.
  - now destruct (is_ValueError e).
Qed.

(** X13. The command [add] never stores a task: it leaves the state as
    it is on every run. It prints one message when the deadline is not
    readable, when a dependency is not stored, or when the flag
    [recurring] comes with an interval outside 1..365; on every other run
    it raises [AttributeError] from the constructor and prints nothing. *)
Theorem add_command_never_stores fromisoformat now title p deadline deps rec
    interval (s : state) :
  let out := CLI.add fromisoformat now title p deadline deps rec interval s in
  snd out = s
  /\ ((CLI.parse_deadline fromisoformat deadline = None
       /\ fst out = Return [CLI.validation_error
                              (CLI.of_fromisoformat (default EmptyString deadline))])
      \/ (is_Some (CLI.parse_deadline fromisoformat deadline)
          /\ (exists dep, dep ∈ CLI.parse_deps deps /\ tasks s !! dep = None)
          /\ fst out = Return [CLI.dependencies_do_not_exist])
      \/ (rec = true
          /\ (exists i, interval = Some i /\ (i < 1 \/ 365 < i))
          /\ exists es, fst out = Return [CLI.validation_error
                                            (CLI.of_exn (ValidationError es))])
      \/ (is_Some (CLI.parse_deadline fromisoformat deadline)
          /\ (forall dep, dep ∈ CLI.parse_deps deps -> is_Some (tasks s !! dep))
          /\ (forall i, rec = true -> interval = Some i -> 1 <= i <= 365)
          /\ fst out = Raise AttributeError)).
Proof.
  cbv zeta. rewrite add_eq.
  destruct (CLI.parse_deadline fromisoformat deadline) as [dl|];
    [|split; [reflexivity | left; split; reflexivity]].
  destruct (forallb _ _) eqn:Ef.
  - rewrite TaskModel_new_eq.
    assert (Hdeps : forall dep, dep ∈ CLI.parse_deps deps -> is_Some (tasks s !! dep)).
    { apply missing_dep_false. now rewrite missing_dep_forallb, Ef. }
    destruct rec; [destruct interval as [i|]|].
    + destruct (Z.ltb_spec i 1); [|destruct (Z.ltb_spec 365 i)]; cbn [is_ValueError].
      * split; [reflexivity|]. right. right. left. split; [reflexivity|].
        split; [exists i; split; [reflexivity | lia] | eexists; reflexivity].
      * split; [reflexivity|]. right. right. left. split; [reflexivity|].
        split; [exists i; split; [reflexivity | lia] | eexists; reflexivity].
      * split; [reflexivity|]. right. right. right. split; [eauto|].
        split; [exact Hdeps|]. split; [|reflexivity].
        intros i' _ [= <-]. lia.
    + split; [reflexivity|]. right. right. right. split; [eauto|].
      split; [exact Hdeps|]. split; [|reflexivity]. intros i' _ H. discriminate H.
    + split; [reflexivity|]. right. right. right. split; [eauto|].
      split; [exact Hdeps|]. split; [|reflexivity]. intros i' H. discriminate H.
  - split; [reflexivity|]. right. left. split; [eauto|]. split; [|reflexivity].
    apply missing_dep_true. now rewrite missing_dep_forallb, Ef.
Qed.

Lemma get_pending_dependencies_eq key (s : state) :
  get_pending_dependencies key s = (fst (get_pending_dependencies key s), s).
Proof.
  rewrite <- (get_pending_dependencies_state key s) at 3.
  now destruct (get_pending_dependencies key s).
Qed.

(** The command [done], by cases. *)
Lemma complete_eq now key (s : state) :
  CLI.complete now key s =
  match fst (get_pending_dependencies key s) with
  | Raise e => (Raise e, s)
  | Return (dep :: deps) => (Return [CLI.cannot_complete (dep :: deps)], s)
  | Return [] =>
      match complete_task now key s with
      | (Raise e, s') => (Raise e, s')
      | (Return false, s') => (Return [CLI.task_not_found key], s')
      | (Return true, s') =>
          match tasks s' !! key with
          | Some task =>
              (Return (CLI.task_completed key
                       :: if recurring task then [CLI.new_recurring_task_created] else []),
               s')
          | None => (Raise (KeyError key), s')
          end
      end
  end.
Proof.
  unfold CLI.complete. unfold mbind at 1. unfold M_bind at 1.
  rewrite (get_pending_dependencies_eq key s).
  destruct (fst (get_pending_dependencies key s)) as [[|dep deps]|e]; cbn [fst];
    try reflexivity.
  unfold mbind, M_bind, get_tasks, mret, M_ret, lift.
  destruct (complete_task now key s) as [[[|]|e] s']; try reflexivity.
  now destruct (tasks s' !! key).
Qed.

(** X15. The command [done]. For a title that is not stored it prints
    that the task was not found; for a stored task some of whose
    dependencies are pending it prints them and does not complete it; in
    both cases the state is untouched. For a stored task with no pending
    dependency on which [complete_task] returns true, the task is marked
    and saved, and the message of completion is followed, for every
    recurring task, by the message that a new recurring task was created. *)
Theorem done_command_outcomes now key (s : state) :
  (tasks s !! key = None ->
   CLI.complete now key s = (Return [CLI.task_not_found key], s))
  /\ (forall dep deps,
        fst (get_pending_dependencies key s) = Return (dep :: deps) ->
        CLI.complete now key s = (Return [CLI.cannot_complete (dep :: deps)], s))
  /\ (forall task,
        tasks s !! key = Some task ->
        fst (get_pending_dependencies key s) = Return [] ->
        fst (complete_task now key s) = Return true ->
        CLI.complete now key s
        = (Return (CLI.task_completed key
                   :: if recurring task then [CLI.new_recurring_task_created] else []),
           snd (complete_task now key s))
        /\ tasks (snd (complete_task now key s)) !! key = Some (set_completed task)
        /\ synced (snd (complete_task now key s))).
Proof.
  split; [|split].
  - intros Hk. rewrite complete_eq.
    unfold get_pending_dependencies, mbind, M_bind, get_tasks, mret, M_ret.
    rewrite Hk. cbn [fst]. now rewrite complete_task_absent.
  - intros dep deps H. now rewrite complete_eq, H.
  - intros task Hk Hp Hret.
    pose proof (complete_task_lookup now key s key task Hk) as Hl.
    rewrite decide_True in Hl by reflexivity.
    split; [|split; [exact Hl|]].
    + rewrite complete_eq, Hp.
      destruct (complete_task now key s) as [r s'] eqn:E. cbn [fst snd] in *.
      subst r. now rewrite Hl.
    + destruct (complete_task_result now key s) as [H|[[ts H]|[e H]]];
        rewrite H in *; cbn [fst snd] in *; try discriminate.
      apply synced_written.
Qed.

Lemma done_command_outcomes_witness :
  let now := mk_datetime 2025 6 1 12 0 0 0 in
  let A := mk_TaskModel "A" MEDIUM None [] false None false now in
  let B := mk_TaskModel "B" HIGH None ["A"] false None false now in
  let s := mk_state "tasks.json" (<["B" := B]> {[ "A" := A ]}) ∅ in
  CLI.complete now "C" s = (Return [CLI.task_not_found "C"], s)
  /\ CLI.complete now "B" s = (Return [CLI.cannot_complete ["A"%string]], s)
  /\ CLI.complete now "A" s
     = (Return [CLI.task_completed "A"], snd (complete_task now "A" s)).
Proof.
  intros now A B s. split; [|split].
  - apply (proj1 (done_command_outcomes now "C" s)). reflexivity.
  - apply (proj1 (proj2 (done_command_outcomes now "B" s)) "A" []). reflexivity.
  - apply (proj2 (proj2 (done_command_outcomes now "A" s)) A); reflexivity.
Defined.

(** X16. The command [done] on a stored recurring task that has no
    interval and no pending dependency: it prints that the task is
    completed and that a new recurring task was created, while no task is
    added: the mapping saved is the old one with the task marked. *)
Theorem done_reports_a_new_task_without_creating_one now key (s : state) task :
  tasks s !! key = Some task ->
  recurring task = true ->
  recurrence_interval task = None ->
  fst (get_pending_dependencies key s) = Return [] ->
  CLI.complete now key s
  = (Return [CLI.task_completed key; CLI.new_recurring_task_created],
     written s (<[key := set_completed task]> (tasks s)))
  /\ dom (<[key := set_completed task]> (tasks s)) = dom (tasks s).
Proof.
  intros Hk Hrec Hi Hp. split.
  - rewrite complete_eq, Hp.
    rewrite (complete_task_stored now key s task Hk), Hi, andb_false_r.
    cbn [tasks written]. rewrite lookup_insert_eq. cbn [recurring set_completed].
    now rewrite Hrec.
  - apply dom_insert_lookup_L. now exists task.
Qed.

Lemma done_reports_a_new_task_without_creating_one_witness :
  let created := mk_datetime 2025 6 1 12 0 0 0 in
  let now := mk_datetime 2025 6 2 8 0 0 0 in
  let R := mk_TaskModel "R" HIGH (Some (mk_datetime 2025 6 3 0 0 0 0)) [] true
             None false created in
  let s := written (mk_state "tasks.json" ∅ ∅) {[ "R" := R ]} in
  TaskModel_without_interval created "R" HIGH (Some (mk_datetime 2025 6 3 0 0 0 0)) [] true
  = Return R
  /\ CLI.complete now "R" s
     = (Return [CLI.task_completed "R"; CLI.new_recurring_task_created],
        written s {[ "R" := set_completed R ]}).
Proof.
  intros created now R s. split; [reflexivity|].
  assert (Hk : tasks s !! "R"%string = Some R) by reflexivity.
  assert (Hp : fst (get_pending_dependencies "R" s) = Return []) by reflexivity.
  exact (proj1 (done_reports_a_new_task_without_creating_one now "R" s R
                  Hk eq_refl eq_refl Hp)).
Defined.

Lemma split_nonempty (sep : ascii) (s : string) : CLI.split sep s <> [].
Proof.
  destruct s as [|c r]; cbn [CLI.split]; [discriminate|].
  destruct (Ascii.eqb c sep); [discriminate|].
  destruct (CLI.split sep r); discriminate.
Qed.

Lemma split_trailing_separator (sep : ascii) (s : string) :
  CLI.split sep (s +:+ String sep EmptyString) = CLI.split sep s ++ [EmptyString].
Proof.
  induction s as [|c r IH].
  - change (EmptyString +:+ String sep EmptyString) with (String sep EmptyString).
    cbn [CLI.split]. now rewrite Ascii.eqb_refl.
  - change (String c r +:+ String sep EmptyString)
      with (String c (r +:+ String sep EmptyString)).
    cbn [CLI.split]. rewrite IH.
    destruct (Ascii.eqb c sep); [reflexivity|].
    pose proof (split_nonempty sep r).
    destruct (CLI.split sep r) as [|seg segs]; [congruence | reflexivity].
Qed.

Lemma no_empty_title (ts : gmap string TaskModel) :
  keyed_by_title ts -> store_valid ts -> ts !! EmptyString = None.
Proof.
  intros Hk Hv. destruct (ts !! EmptyString) as [t|] eqn:E; [|reflexivity].
  pose proof (Hk _ t E) as Ht. destruct (Hv _ t E) as [Hlen _].
  rewrite Ht in Hlen. cbn in Hlen. lia.
Qed.

(** X17. A blank dependency is always refused. In a store of valid
    tasks stored under their titles, the command [add] with a dependency
    option one of whose comma-separated segments is empty or blank, as
    with a trailing comma, prints that dependencies do not exist and
    changes nothing, whenever its deadline option is readable. *)
Theorem add_command_refuses_a_blank_dependency fromisoformat now title p deadline deps
    rec interval (s : state) :
  keyed_by_title (tasks s) -> store_valid (tasks s) ->
  is_Some (CLI.parse_deadline fromisoformat deadline) ->
  (EmptyString ∈ CLI.parse_deps deps ->
   CLI.add fromisoformat now title p deadline deps rec interval s
   = (Return [CLI.dependencies_do_not_exist], s))
  /\ EmptyString ∈ CLI.parse_deps (deps +:+ ",").
Proof.
  intros Hk Hv [dl Hdl]. split.
  - intros Hin. rewrite add_eq, Hdl.
    assert (Hm : existsb (fun dep => negb (contains dep (tasks s))) (CLI.parse_deps deps)
                 = true).
    { apply missing_dep_true. exists EmptyString.
      split; [exact Hin | now apply no_empty_title]. }
    rewrite missing_dep_forallb in Hm. apply negb_true_iff in Hm. now rewrite Hm.
  - unfold CLI.parse_deps.
    destruct (deps +:+ ",") as [|c r] eqn:E.
    + destruct deps; discriminate E.
    + rewrite <- E. change ","%string with (String ","%char EmptyString).
      rewrite split_trailing_separator, map_app. apply elem_of_app. right.
      cbn. left.
Qed.

Lemma add_command_refuses_a_blank_dependency_witness :
  let now := mk_datetime 2025 6 1 12 0 0 0 in
  let A := mk_TaskModel "A" MEDIUM None [] false None false now in
  let s := mk_state "tasks.json" {[ "A" := A ]} ∅ in
  CLI.add (fun _ => None) now "B" HIGH None "A," false None s
  = (Return [CLI.dependencies_do_not_exist], s).
Proof.
  intros now A s.
  assert (Hk : keyed_by_title (tasks s)).
  { intros k t H. cbn [tasks s] in H. now apply lookup_singleton_Some in H as [<- <-]. }
  assert (Hv : store_valid (tasks s)).
  { intros k t H. cbn [tasks s] in H. apply lookup_singleton_Some in H as [_ <-].
    split; [cbn; lia|]. split; [intros d H; discriminate H|]. split; reflexivity. }
  assert (Hd : is_Some (CLI.parse_deadline (fun _ => None) None))
    by (eexists; reflexivity).
  refine (proj1 (add_command_refuses_a_blank_dependency (fun _ => None) now "B" HIGH
                   None "A," false None s Hk Hv Hd) _).
  cbn. right. left.
Defined.

